(** * AudioStreamer: chunk queue, decode worker and output callback

    A shallow embedding of [audio_streamer.py].  The Python object, the
    threads and output streams it creates, the temporary directory and the
    console are one explicit [state]; every method is a function in a small
    state-and-exception monad, so that what a method leaves behind when it
    raises stays visible.  Samples are binary64 floats (Python floats); the
    device buffer holds binary32 values, obtained with [float32]. *)

From Stdlib Require Import ZArith List Floats Lia.
From stdpp Require Import base option list gmap strings.

(** ** Python values used by the module *)

Definition bytes : Type := list Byte.byte.

Inductive exception : Type :=
| Empty                          (* queue.Empty *)
| Full                           (* queue.Full *)
| ValueError (msg : string)      (* numpy *)
| LibsndfileError (msg : string) (* soundfile *)
| FileNotFoundError.             (* os *)

Inductive result (A : Type) : Type :=
| Ok (a : A)
| Raise (e : exception).
Arguments Ok {A} a.
Arguments Raise {A} e.

Definition is_raise {A} (r : result A) : bool :=
  match r with Ok _ => false | Raise _ => true end.

(** ** numpy: the two array operations the module relies on *)

Module Numpy.

Definition byte_value (b : Byte.byte) : Z := Z.of_N (Byte.to_N b).

(** One [np.int16] item read from two bytes in little-endian order (the
    native order of the hosts the module runs on). *)
Definition int16_le (lo hi : Byte.byte) : Z :=
  let u := Z.lor (byte_value lo) (Z.shiftl (byte_value hi) 8) in
  if Z.testbit u 15 then (u - 65536)%Z else u.

Fixpoint int16_items (buffer : bytes) : list Z :=
  match buffer with
  | lo :: hi :: rest => int16_le lo hi :: int16_items rest
  | _ => []
  end.

(** [np.frombuffer(buffer, dtype=np.int16)]: the size check comes first. *)
Definition frombuffer_int16 (buffer : bytes) : result (list Z) :=
  if (length buffer mod 2 =? 0)%nat then Ok (int16_items buffer)
  else Raise (ValueError "buffer size must be a multiple of element size").

(** An integer as a float (exact below 2^53). *)
Definition float_of_Z (z : Z) : float :=
  if (z <? 0)%Z then (- PrimFloat.of_uint63 (Uint63.of_Z (- z)))%float
  else PrimFloat.of_uint63 (Uint63.of_Z z).

(** Rounding of a binary64 value to binary32 (round to nearest even), the
    conversion numpy applies when a value enters a [float32] array. *)
Definition float32 (x : float) : float :=
  match Prim2SF x with
  | S754_finite s m e => SF2Prim (binary_round 24 128 s m e)
  | _ => x
  end.

(** [arr.astype(np.float32) / 32768.0] on one item: the quotient of a
    float32 array by a Python float is a float32 array. *)
Definition int16_to_sample (v : Z) : float :=
  float32 (float32 (float_of_Z v) / 32768)%float.

(** [outdata[:stop] = value] for column arrays: the shapes must agree, or
    the value must have one row, which is then broadcast. *)
Definition setitem_upto (outdata : list float) (stop : nat)
    (value : list float) : result (list float) :=
  let n := min stop (length outdata) in
  if (length value =? n)%nat then Ok (value ++ drop n outdata)
  else match value with
       | [v] => Ok (replicate n v ++ drop n outdata)
       | _ => Raise (ValueError "could not broadcast input array")
       end.

(** [outdata[start:] = v] for a scalar [v]. *)
Definition setitem_from (outdata : list float) (start : nat) (v : float)
    : list float :=
  take start outdata ++ replicate (length outdata - start) v.

(** [outdata.fill(v)]. *)
Definition fill (outdata : list float) (v : float) : list float :=
  replicate (length outdata) v.

End Numpy.

(** The raw-PCM interpretation of a chunk, the expression of the fallback
    branch: [np.frombuffer(audio_data, dtype=np.int16).astype(np.float32)
    / 32768.0], read back with [tolist()]. *)
Definition raw_pcm (audio_data : bytes) : result (list float) :=
  match Numpy.frombuffer_int16 audio_data with
  | Ok items => Ok (map Numpy.int16_to_sample items)
  | Raise e => Raise e
  end.

(** The specification's reading of the same bytes: the [i]-th little-endian
    signed 16-bit integer of a byte sequence, by position. *)
Definition le_int16_at (bs : bytes) (i : nat) : Z :=
  let lo := Numpy.byte_value (nth (2 * i) bs Byte.x00) in
  let hi := Numpy.byte_value (nth (2 * i + 1) bs Byte.x00) in
  let u := (lo + 256 * hi)%Z in
  if (u <? 32768)%Z then u else (u - 65536)%Z.

(** ** The state: the object, and the process around it *)

Inductive stream_status : Type :=
| Inactive   (* opened, or stopped and not closed yet *)
| Active     (* started: the device calls the callback *)
| Closed.

(** [sd.CallbackFlags]: true as a condition when some flag is set. *)
Inductive CallbackFlag : Type :=
| input_underflow | input_overflow
| output_underflow | output_overflow
| priming_output.

(** What the module prints, one constructor per [print] call. *)
Inductive line : Type :=
| AudioStatus (status : list CallbackFlag)
| StartedStreaming (rate : Z)
| AddedChunk (n : nat) (rate : Z)
| FailedDecode (decode_error : exception)
| AddedRawPCM (n : nat)
| FailedProcess (pcm_error : exception)
| WorkerError (e : exception)
| QueueFullDropping.

(** [queue.Queue]: [maxsize <= 0] means unbounded.  An item is whatever
    [add_audio_chunk] was given: a chunk of bytes, or [None]. *)
Record Queue : Type := mkQueue {
  maxsize : Z;
  queue : list (option bytes);
}.

Record state : Type := mkState {
  (* the attributes set by __init__ *)
  audio_queue : Queue;
  audio_thread : option nat;
  playing : bool;
  sample_rate : Z;
  audio_stream : option nat;
  audio_data_buffer : list float;
  (* every Thread created so far, with its is_alive() *)
  threads : list bool;
  (* every OutputStream created so far *)
  streams : list stream_status;
  (* the named temporary files *)
  tmpdir : gmap nat bytes;
  (* the console *)
  stdout : list line;
}.

Definition set_queue (q : list (option bytes)) (st : state) : state :=
  mkState (mkQueue (maxsize (audio_queue st)) q) (audio_thread st) (playing st)
    (sample_rate st) (audio_stream st) (audio_data_buffer st) (threads st)
    (streams st) (tmpdir st) (stdout st).

Definition set_audio_thread (t : option nat) (st : state) : state :=
  mkState (audio_queue st) t (playing st) (sample_rate st) (audio_stream st)
    (audio_data_buffer st) (threads st) (streams st) (tmpdir st) (stdout st).

Definition set_playing (b : bool) (st : state) : state :=
  mkState (audio_queue st) (audio_thread st) b (sample_rate st)
    (audio_stream st) (audio_data_buffer st) (threads st) (streams st)
    (tmpdir st) (stdout st).

Definition set_audio_stream (s : option nat) (st : state) : state :=
  mkState (audio_queue st) (audio_thread st) (playing st) (sample_rate st) s
    (audio_data_buffer st) (threads st) (streams st) (tmpdir st) (stdout st).

Definition set_audio_data_buffer (b : list float) (st : state) : state :=
  mkState (audio_queue st) (audio_thread st) (playing st) (sample_rate st)
    (audio_stream st) b (threads st) (streams st) (tmpdir st) (stdout st).

Definition set_threads (ts : list bool) (st : state) : state :=
  mkState (audio_queue st) (audio_thread st) (playing st) (sample_rate st)
    (audio_stream st) (audio_data_buffer st) ts (streams st) (tmpdir st)
    (stdout st).

Definition set_streams (ss : list stream_status) (st : state) : state :=
  mkState (audio_queue st) (audio_thread st) (playing st) (sample_rate st)
    (audio_stream st) (audio_data_buffer st) (threads st) ss (tmpdir st)
    (stdout st).

Definition set_tmpdir (d : gmap nat bytes) (st : state) : state :=
  mkState (audio_queue st) (audio_thread st) (playing st) (sample_rate st)
    (audio_stream st) (audio_data_buffer st) (threads st) (streams st) d
    (stdout st).

Definition set_stdout (o : list line) (st : state) : state :=
  mkState (audio_queue st) (audio_thread st) (playing st) (sample_rate st)
    (audio_stream st) (audio_data_buffer st) (threads st) (streams st)
    (tmpdir st) o.

(** ** The monad: state that survives a raise *)

Definition M (A : Type) : Type := state -> result A * state.

Definition ret {A} (a : A) : M A := fun st => (Ok a, st).

Definition raise {A} (e : exception) : M A := fun st => (Raise e, st).

Definition bind {A B} (m : M A) (k : A -> M B) : M B :=
  fun st =>
    match m st with
    | (Ok a, st') => k a st'
    | (Raise e, st') => (Raise e, st')
    end.

(** [try: body / except ... as e: handler e].  A handler that does not
    match re-raises. *)
Definition try_except {A} (body : M A) (handler : exception -> M A) : M A :=
  fun st =>
    match body st with
    | (Ok a, st') => (Ok a, st')
    | (Raise e, st') => handler e st'
    end.

Definition gets {A} (f : state -> A) : M A := fun st => (Ok (f st), st).

Definition modify (f : state -> state) : M unit := fun st => (Ok tt, f st).

Definition lift {A} (r : result A) : M A := fun st => (r, st).

Definition exec {A} (m : M A) (st : state) : state := snd (m st).

Declare Scope py_scope.
Delimit Scope py_scope with py.
Notation "x <- m ;; k" := (bind m (fun x => k))
  (at level 100, m at next level, k at level 200, right associativity)
  : py_scope.
Notation "m ;; k" := (bind m (fun _ => k))
  (at level 100, k at level 200, right associativity, only parsing)
  : py_scope.
Open Scope py_scope.

(** ** The collaborators: queue, threads, output streams, files, console *)

Definition print (l : line) : M unit :=
  modify (fun st => set_stdout (stdout st ++ [l]) st).

(** [Queue.full()], as [put] tests it: a bound applies only when
    [maxsize > 0]. *)
Definition queue_full (q : Queue) : bool :=
  (0 <? maxsize q)%Z && (maxsize q <=? Z.of_nat (length (queue q)))%Z.

(** [self.audio_queue.put(item, block=False)]. *)
Definition queue_put_nowait (item : option bytes) : M unit :=
  full <- gets (fun st => queue_full (audio_queue st)) ;;
  if (full : bool) then raise Full
  else modify (fun st => set_queue (queue (audio_queue st) ++ [item]) st).

(** [self.audio_queue.get(timeout=0.1)]: the head of the queue, or
    [queue.Empty] when nothing arrived before the timeout. *)
Definition queue_get : M (option bytes) :=
  q <- gets (fun st => queue (audio_queue st)) ;;
  match q with
  | [] => raise Empty
  | item :: rest => modify (set_queue rest) ;; ret item
  end.

Definition is_alive (tid : nat) (st : state) : bool :=
  match threads st !! tid with
  | Some alive => alive
  | None => false
  end.

(** [threading.Thread(target=..., daemon=True)]: a new thread object, not
    started. *)
Definition Thread_new : M nat :=
  tid <- gets (fun st => length (threads st)) ;;
  modify (fun st => set_threads (threads st ++ [false]) st) ;;
  ret tid.

Definition Thread_start (tid : nat) : M unit :=
  modify (fun st => set_threads (<[tid := true]> (threads st)) st).

(** [sd.OutputStream(...)]: a new stream, opened and not started.  An
    output device is taken to be present: opening and starting succeed. *)
Definition OutputStream_new : M nat :=
  sid <- gets (fun st => length (streams st)) ;;
  modify (fun st => set_streams (streams st ++ [Inactive]) st) ;;
  ret sid.

Definition is_active (sid : nat) (st : state) : bool :=
  match streams st !! sid with
  | Some Active => true
  | _ => false
  end.

(** [stream.start()], [stream.stop()], [stream.close()].  The last two are
    called with sounddevice's default [ignore_errors=True]: on a stream that
    is closed already they change nothing and raise nothing. *)
Definition stream_start (sid : nat) : M unit :=
  modify (fun st =>
    match streams st !! sid with
    | Some Inactive => set_streams (<[sid := Active]> (streams st)) st
    | _ => st
    end).

Definition stream_stop (sid : nat) : M unit :=
  modify (fun st =>
    match streams st !! sid with
    | Some Active => set_streams (<[sid := Inactive]> (streams st)) st
    | _ => st
    end).

Definition stream_close (sid : nat) : M unit :=
  modify (fun st => set_streams (<[sid := Closed]> (streams st)) st).

(** [tempfile.NamedTemporaryFile(suffix='.wav', delete=False)]: a new, empty
    file under a name not in use.  The temporary directory is taken to be
    writable, with room for the chunk. *)
Definition NamedTemporaryFile : M nat :=
  name <- gets (fun st => fresh (dom (tmpdir st))) ;;
  modify (fun st => set_tmpdir (<[name := []]> (tmpdir st)) st) ;;
  ret name.

(** [temp_file.write(data)] followed by [flush()]. *)
Definition file_write (name : nat) (data : bytes) : M unit :=
  modify (fun st =>
    set_tmpdir (<[name := default [] (tmpdir st !! name) ++ data]> (tmpdir st))
      st).

(** [os.unlink(name)]. *)
Definition os_unlink (name : nat) : M unit :=
  d <- gets tmpdir ;;
  match d !! name with
  | Some _ => modify (fun st => set_tmpdir (delete name (tmpdir st)) st)
  | None => raise FileNotFoundError
  end.

(** The decoder library.  What [soundfile.read] makes of the contents of a
    file is outside this module: a single-channel sample array and its
    sample rate, or an error. *)
Class SoundFile : Type := {
  sf_decode : bytes -> result (list float * Z);
}.

(** ** The methods of [AudioStreamer] *)

Definition __init__ (sample_rate : Z) : state :=
  {| audio_queue := {| maxsize := 0; queue := [] |};
     audio_thread := None;
     playing := false;
     sample_rate := sample_rate;
     audio_stream := None;
     audio_data_buffer := [];
     threads := [];
     streams := [];
     tmpdir := ∅;
     stdout := [] |}.

(** The callback of the output stream.  [outdata] is the device's buffer of
    [frames] rows and one column; the result is the drained [chunk] (empty
    when the branch binds none) with the buffer as the callback leaves it.
    The body is one critical section of [buffer_lock]. *)
Definition audio_callback (outdata : list float) (frames : nat)
    (status : list CallbackFlag) : M (list float * list float) :=
  (match status with
   | [] => ret tt
   | _ => print (AudioStatus status)
   end) ;;
  buffer <- gets audio_data_buffer ;;
  if (frames <=? length buffer)%nat then
    let chunk := take frames buffer in
    modify (set_audio_data_buffer (drop frames buffer)) ;;
    out <- lift (Numpy.setitem_upto outdata (length outdata)
                   (map Numpy.float32 chunk)) ;;
    ret (chunk, out)
  else if (0 <? length buffer)%nat then
    let chunk := buffer in
    modify (set_audio_data_buffer []) ;;
    out <- lift (Numpy.setitem_upto outdata (length chunk)
                   (map Numpy.float32 chunk)) ;;
    ret (chunk, Numpy.setitem_from out (length chunk) 0%float)
  else
    ret ([], Numpy.fill outdata 0%float).

Definition _start_streaming_output : M unit :=
  sid <- OutputStream_new ;;
  modify (set_audio_stream (Some sid)) ;;
  stream_start sid ;;
  rate <- gets sample_rate ;;
  print (StartedStreaming rate).

Definition start : M unit :=
  st <- gets id ;;
  if (match audio_thread st with
      | None => true
      | Some tid => negb (is_alive tid st)
      end)
  then
    modify (set_playing true) ;;
    tid <- Thread_new ;;
    modify (set_audio_thread (Some tid)) ;;
    Thread_start tid ;;
    _start_streaming_output
  else ret tt.

(** [join(timeout=1.0)] only waits: whether the worker has left its loop by
    the time it returns is decided by the worker's own turns, so the wait
    changes no attribute. *)
Definition Thread_join (tid : nat) : M unit := ret tt.

Definition stop : M unit :=
  modify (set_playing false) ;;
  s <- gets audio_stream ;;
  (match s with
   | Some sid => stream_stop sid ;; stream_close sid
   | None => ret tt
   end) ;;
  st <- gets id ;;
  match audio_thread st with
  | Some tid => if is_alive tid st then Thread_join tid else ret tt
  | None => ret tt
  end.

Definition add_audio_chunk (audio_data : option bytes) : M unit :=
  try_except (queue_put_nowait audio_data)
    (fun e => match e with
              | Full => print QueueFullDropping
              | _ => raise e
              end).

Inductive control : Type :=
| Next    (* fall through or [continue]: back to the loop test *)
| Break.

Section Worker.
Context `{SoundFile}.

(** [soundfile.read(name)]. *)
Definition soundfile_read (name : nat) : M (list float * Z) :=
  d <- gets tmpdir ;;
  match d !! name with
  | Some data => lift (sf_decode data)
  | None => raise (LibsndfileError "System error.")
  end.

(** One pass through the body of the [while] loop. *)
Definition worker_iteration : M control :=
  try_except
    (audio_data <- queue_get ;;
     match audio_data with
     | None => ret Break
     | Some data =>
       try_except
         (temp_file <- NamedTemporaryFile ;;
          file_write temp_file data ;;
          read <- soundfile_read temp_file ;;
          let '(audio_array, actual_sample_rate) := read in
          os_unlink temp_file ;;
          modify (fun st =>
            set_audio_data_buffer (audio_data_buffer st ++ audio_array) st) ;;
          print (AddedChunk (length audio_array) actual_sample_rate))
         (fun decode_error =>
            print (FailedDecode decode_error) ;;
            try_except
              (audio_array <- lift (raw_pcm data) ;;
               modify (fun st =>
                 set_audio_data_buffer (audio_data_buffer st ++ audio_array)
                   st) ;;
               print (AddedRawPCM (length audio_array)))
              (fun pcm_error => print (FailedProcess pcm_error))) ;;
       ret Next
     end)
    (fun e => match e with
              | Empty => ret Next
              | _ => print (WorkerError e) ;; ret Next
              end).

(** [_audio_processing_worker], for at most [fuel] passes: [true] when the
    function has returned, [false] when it is back at the loop test with
    passes left to do. *)
Fixpoint _audio_processing_worker (fuel : nat) : M bool :=
  match fuel with
  | O => ret false
  | S fuel' =>
    p <- gets playing ;;
    if (p : bool) then
      c <- worker_iteration ;;
      match c with
      | Break => ret true
      | Next => _audio_processing_worker fuel'
      end
    else ret true
  end.

(** ** The three threads of execution, interleaved *)

(** The loop test of the worker (line 78) and its [queue.get] (line 81)
    are two steps.  Calls that fall between them and leave [playing] alone
    commute with the test, so a test followed at once by its pass,
    [WorkerTurn], covers them.  [stop()] does not commute: a worker that read
    the flag while it was up goes through its pass after [stop()] has
    lowered it.  That pass is [WorkerLatePass]: the body of the loop without
    the test, after which the thread is back at the test. *)
Inductive event : Type :=
| CallStart
| CallStop
| CallAdd (audio_data : option bytes)
| WorkerTurn (tid : nat)
| DeviceCallback (sid : nat) (outdata : list float)
    (status : list CallbackFlag)
| WorkerLatePass (tid : nat).

(** One loop test of the worker thread [tid] followed at once by the pass
    it allows; the thread is dead once its target has returned (or
    raised).  The pass of a test made earlier is [worker_late_pass]. *)
Definition worker_turn (tid : nat) (st : state) : state :=
  if is_alive tid st then
    match _audio_processing_worker 1 st with
    | (Ok false, st') => st'
    | (_, st') => set_threads (<[tid := false]> (threads st')) st'
    end
  else st.

(** The pass of a worker thread [tid] whose loop test was made earlier:
    the body runs whatever the flag is by now. *)
Definition worker_late_pass (tid : nat) (st : state) : state :=
  if is_alive tid st then
    match worker_iteration st with
    | (Ok Next, st') => st'
    | (_, st') => set_threads (<[tid := false]> (threads st')) st'
    end
  else st.

(** A step, with what a callback drained and delivered, if one ran.  The
    device asks for as many frames as its buffer has rows. *)
Definition step (st : state) (ev : event)
    : state * list (list float * list float) :=
  match ev with
  | CallStart => (exec start st, [])
  | CallStop => (exec stop st, [])
  | CallAdd audio_data => (exec (add_audio_chunk audio_data) st, [])
  | WorkerTurn tid => (worker_turn tid st, [])
  | DeviceCallback sid outdata status =>
    if is_active sid st then
      match audio_callback outdata (length outdata) status st with
      | (Ok delivered, st') => (st', [delivered])
      | (Raise _, st') => (st', [])
      end
    else (st, [])
  | WorkerLatePass tid => (worker_late_pass tid st, [])
  end.

Fixpoint run (st : state) (trace : list event)
    : state * list (list float * list float) :=
  match trace with
  | [] => (st, [])
  | ev :: rest =>
    let '(st1, out1) := step st ev in
    let '(st2, out2) := run st1 rest in
    (st2, out1 ++ out2)
  end.

(** Everything the callbacks drained, in order. *)
Definition drained (delivered : list (list float * list float)) : list float :=
  concat (map fst delivered).

(** The chunks handed to [add_audio_chunk], in order. *)
Fixpoint submitted (trace : list event) : list bytes :=
  match trace with
  | [] => []
  | CallAdd (Some data) :: rest => data :: submitted rest
  | _ :: rest => submitted rest
  end.

(** The samples a chunk contributes: those of the container decode, else
    those of the raw-PCM reading, else none. *)
Definition decoded (data : bytes) : list float :=
  match sf_decode data with
  | Ok (audio_array, _) => audio_array
  | Raise _ =>
    match raw_pcm data with
    | Ok audio_array => audio_array
    | Raise _ => []
    end
  end.

Definition pending (st : state) : list bytes :=
  omap id (queue (audio_queue st)).

(** The samples on their way to the device: those buffered, then those the
    queued chunks will contribute. *)
Definition in_flight (st : state) : list float :=
  audio_data_buffer st ++ flat_map decoded (pending st).

(** Every item handed to [add_audio_chunk], chunk or not, in order. *)
Fixpoint offered (trace : list event) : list (option bytes) :=
  match trace with
  | [] => []
  | CallAdd audio_data :: rest => audio_data :: offered rest
  | _ :: rest => offered rest
  end.

End Worker.

(** ** Vocabulary of the properties *)

(** StreamState, as the worker loop reads it: the [playing] flag. *)
Definition Running (st : state) : Prop := playing st = true.

(** What [__init__] and [stop] leave behind: the flag down and no output
    stream open. *)
Definition Stopped (st : state) : Prop :=
  playing st = false /\
  match audio_stream st with
  | None => True
  | Some sid => streams st !! sid = Some Closed
  end.

(** The test of [start]: a worker thread exists and is alive. *)
Definition worker_alive (st : state) : Prop :=
  exists tid, audio_thread st = Some tid /\ is_alive tid st = true.

(** The other outcome of that test. *)
Definition worker_dead (st : state) : Prop :=
  match audio_thread st with
  | None => True
  | Some tid => is_alive tid st = false
  end.

Definition no_thread_alive (st : state) : Prop :=
  Forall (fun alive => alive = false) (threads st).

(** The queue [__init__] builds has no bound. *)
Definition unbounded (st : state) : Prop :=
  (maxsize (audio_queue st) <= 0)%Z.

(** No stop sentinel is waiting in the queue. *)
Definition chunks_only (st : state) : Prop :=
  Forall (fun item : option bytes => item <> None) (queue (audio_queue st)).

(** The attributes that neither a worker pass nor a callback changes. *)
Definition same_lifecycle (st st' : state) : Prop :=
  playing st' = playing st /\ threads st' = threads st /\
  streams st' = streams st /\ audio_thread st' = audio_thread st /\
  audio_stream st' = audio_stream st /\
  maxsize (audio_queue st') = maxsize (audio_queue st).

(** A stream in use: the flag is up, worker [tid] runs, the device calls
    the callback of stream [sid], and only chunks are queued. *)
Definition live (tid sid : nat) (st : state) : Prop :=
  playing st = true /\ is_alive tid st = true /\ is_active sid st = true /\
  unbounded st /\ chunks_only st.

(** The events of a stream in use: chunks are submitted, the worker and
    the device take their turns. *)
Definition pipeline_event (ev : event) : bool :=
  match ev with
  | CallAdd (Some _) | WorkerTurn _ | DeviceCallback _ _ _ => true
  | _ => false
  end.

Definition consumer_event (ev : event) : bool :=
  match ev with
  | WorkerTurn _ | DeviceCallback _ _ _ => true
  | _ => false
  end.

(** Anything but the submission of the stop sentinel. *)
Definition chunk_event (ev : event) : bool :=
  match ev with
  | CallAdd None => false
  | _ => true
  end.

Definition not_start (ev : event) : bool :=
  match ev with
  | CallStart => false
  | _ => true
  end.

(** A binary64 value that is a binary32 value: the conversion leaves it
    as it is. *)
Definition binary32 (x : float) : Prop := Numpy.float32 x = x.

(** The state a callback starts from once it has reported the status. *)
Definition reported (status : list CallbackFlag) (st : state) : state :=
  match status with
  | [] => st
  | _ => set_stdout (stdout st ++ [AudioStatus status]) st
  end.

(** ** Two decoders to run the model on *)

(** A decoder that recognises no container: every chunk is left to the
    raw-PCM reading, as libsndfile does with headerless bytes. *)
Definition headerless : SoundFile :=
  {| sf_decode := fun _ => Raise (LibsndfileError "Format not recognised.") |}.

(** A toy container: the letter W, then one unsigned 8-bit sample per
    byte, at 8000 Hz. *)
Definition toy_container : SoundFile :=
  {| sf_decode := fun data =>
       match data with
       | Byte.x57 :: body =>
         Ok (map (fun b => (Numpy.float_of_Z (Numpy.byte_value b) / 256)%float)
               body, 8000%Z)
       | _ => Raise (LibsndfileError "Format not recognised.")
       end |}.

(** Two chunks in the toy container and one of raw PCM, with the worker
    and the device interleaved; a one-byte chunk fails both readings. *)
Definition sample_trace : list event :=
  [CallAdd (Some [Byte.x57; Byte.x80; Byte.x40]);
   WorkerTurn 0;
   CallAdd (Some [Byte.x00; Byte.x40]);
   DeviceCallback 0 [0%float] [];
   CallAdd (Some [Byte.x01]);
   WorkerTurn 0;
   CallAdd (Some [Byte.x57; Byte.xc0]);
   WorkerTurn 0;
   DeviceCallback 0 [0%float; 0%float; 0%float] [output_underflow]].

(** ** Vocabulary of the further properties *)

(** The steps of worker threads: loop tests with their passes, and passes
    whose test was made before. *)
Definition worker_event (ev : event) : bool :=
  match ev with
  | WorkerTurn _ | WorkerLatePass _ => true
  | _ => false
  end.

(** What may go on between a submission and the next [start()]: anything
    but a [start()] or another submission. *)
Definition idle_event (ev : event) : bool :=
  match ev with
  | CallStart | CallAdd _ => false
  | _ => true
  end.

(** The callbacks of one stream, one per device buffer handed over. *)
Definition callbacks (sid : nat)
    (requests : list (list float * list CallbackFlag)) : list event :=
  map (fun request => DeviceCallback sid (fst request) (snd request)) requests.

(** The frames those buffers ask for, in all. *)
Definition frames_requested
    (requests : list (list float * list CallbackFlag)) : nat :=
  sum_list (map (fun request => length (fst request)) requests).

(** A line the constructor's sample rate and the unbounded queue allow. *)
Definition expected_line (rate : Z) (l : line) : Prop :=
  match l with
  | QueueFullDropping => False
  | StartedStreaming r => r = rate
  | _ => True
  end.

(** A live thread is the one [audio_thread] refers to. *)
Definition single_worker (st : state) : Prop :=
  forall t, is_alive t st = true -> audio_thread st = Some t.

(** What every run from [__init__] keeps. *)
Definition kept (rate : Z) (st : state) : Prop :=
  sample_rate st = rate /\ unbounded st /\
  Forall (expected_line rate) (stdout st) /\ single_worker st.

(** The flag and the device agree: the stream [audio_stream] refers to is
    active while the flag is up and closed while it is down. *)
Definition flag_matches_stream (st : state) : Prop :=
  match audio_stream st with
  | None => playing st = false
  | Some sid => streams st !! sid = Some (if playing st then Active else Closed)
  end.

(** A sample between minus one, included, and one, excluded. *)
Definition normalized (x : float) : bool :=
  ((-1) <=? x)%float && (x <? 1)%float.

(** The integer a sample of the raw-PCM reading came from: the sample
    times 32768, read off its mantissa and exponent. *)
Definition sample_to_int16 (x : float) : Z :=
  match Prim2SF (x * 32768)%float with
  | S754_finite s m e =>
    let v := Z.shiftl (Zpos m) e in
    if s then (- v)%Z else v
  | _ => 0%Z
  end.

Section FurtherVocabulary.
Context `{SoundFile}.

(** How many of the chunks the container decode rejects. *)
Definition failed_decodes (chunks : list bytes) : nat :=
  length (filter (fun data => is_raise (sf_decode data) = true) chunks).

(** ** The worker loop, statement by statement *)

(** A worker thread is at its loop test (line 78) or past it, on its way
    through the body of the loop (lines 79-119).  [LoopTest] reads the
    flag: up, the thread goes on to the body; down, the target returns.
    [LoopBody] is the pass, [queue.get] first.  Everything else is
    [Outside]: the calls of the owner and the callbacks of the device. *)
Inductive action : Type :=
| Outside (ev : event)
| LoopTest (tid : nat)
| LoopBody (tid : nat).

(** One action, on the state of the object and the set [past] of the
    threads that are past their loop test. *)
Definition act (st : state) (past : gset nat) (a : action)
    : state * gset nat * list (list float * list float) :=
  match a with
  | Outside ev =>
    if worker_event ev then (st, past, [])
    else let '(st', out) := step st ev in (st', past, out)
  | LoopTest tid =>
    if is_alive tid st && negb (bool_decide (tid ∈ past)) then
      if playing st then (st, past ∪ {[tid]}, [])
      else (set_threads (<[tid := false]> (threads st)) st, past, [])
    else (st, past, [])
  | LoopBody tid =>
    if is_alive tid st && bool_decide (tid ∈ past) then
      match worker_iteration st with
      | (Ok Next, st') => (st', past ∖ {[tid]}, [])
      | (_, st') =>
        (set_threads (<[tid := false]> (threads st')) st', past ∖ {[tid]}, [])
      end
    else (st, past, [])
  end.

Fixpoint acts (st : state) (past : gset nat) (l : list action)
    : state * gset nat * list (list float * list float) :=
  match l with
  | [] => (st, past, [])
  | a :: rest =>
    let '(st1, past1, out1) := act st past a in
    let '(st2, past2, out2) := acts st1 past1 rest in
    (st2, past2, out1 ++ out2)
  end.

(** The events that stand for an action: none for a loop test that finds
    the flag up, the test of [WorkerTurn] for one that finds it down, the
    late pass for the body. *)
Definition events_of (st : state) (past : gset nat) (a : action)
    : list event :=
  match a with
  | Outside ev => if worker_event ev then [] else [ev]
  | LoopTest tid =>
    if is_alive tid st && negb (bool_decide (tid ∈ past)) then
      if playing st then [] else [WorkerTurn tid]
    else []
  | LoopBody tid =>
    if is_alive tid st && bool_decide (tid ∈ past) then [WorkerLatePass tid]
    else []
  end.

Fixpoint trace_of (st : state) (past : gset nat) (l : list action)
    : list event :=
  match l with
  | [] => []
  | a :: rest =>
    let '(st1, past1, _) := act st past a in
    events_of st past a ++ trace_of st1 past1 rest
  end.

End FurtherVocabulary.
(** * Properties *)

(** ** Raw PCM *)

Example raw_pcm_half : raw_pcm [Byte.x00; Byte.x40] = Ok [0.5%float].
Proof. reflexivity. Qed.

Example raw_pcm_extremes :
  raw_pcm [Byte.x00; Byte.x80; Byte.xff; Byte.x7f]
  = Ok [(-1)%float; 0.999969482421875%float].
Proof. reflexivity. Qed.

Example raw_pcm_odd :
  is_raise (raw_pcm [Byte.x00; Byte.x40; Byte.x01]) = true.
Proof. reflexivity. Qed.

Lemma forallb_below (f : nat -> bool) (n : nat) :
  forallb f (seq 0 n) = true -> forall i, i < n -> f i = true.
Proof.
  intros Hall i Hi.
  apply (proj1 (forallb_forall f (seq 0 n)) Hall).
  apply in_seq. lia.
Qed.

Lemma byte_value_range (b : Byte.byte) : (0 <= Numpy.byte_value b < 256)%Z.
Proof.
  unfold Numpy.byte_value. pose proof (Byte.to_N_bounded b). lia.
Qed.

(** The bitwise assembly of an item is the positional value with the
    two's-complement wrap, checked on all 65536 byte pairs. *)
Lemma int16_le_value (lo hi : Byte.byte) :
  Numpy.int16_le lo hi =
  let u := (Numpy.byte_value lo + 256 * Numpy.byte_value hi)%Z in
  if (u <? 32768)%Z then u else (u - 65536)%Z.
Proof.
  unfold Numpy.int16_le.
  pose proof (byte_value_range lo) as Hlo.
  pose proof (byte_value_range hi) as Hhi.
  set (check := fun a b : nat =>
    let x := Z.of_nat a in let y := Z.of_nat b in
    Z.eqb (let u := Z.lor x (Z.shiftl y 8) in
           if Z.testbit u 15 then u - 65536 else u)%Z
          (let u := (x + 256 * y)%Z in
           if (u <? 32768)%Z then u else (u - 65536)%Z)).
  assert (Hall : forallb (fun a => forallb (check a) (seq 0 256)) (seq 0 256)
                 = true) by (vm_compute; reflexivity).
  pose proof (forallb_below _ _ Hall (Z.to_nat (Numpy.byte_value lo))
                ltac:(lia)) as Hrow.
  pose proof (forallb_below _ _ Hrow (Z.to_nat (Numpy.byte_value hi))
                ltac:(lia)) as Hcell.
  unfold check in Hcell. rewrite !Z2Nat.id in Hcell by lia.
  apply Z.eqb_eq in Hcell. exact Hcell.
Qed.

Lemma int16_le_range (lo hi : Byte.byte) :
  (-32768 <= Numpy.int16_le lo hi < 32768)%Z.
Proof.
  rewrite int16_le_value.
  pose proof (byte_value_range lo). pose proof (byte_value_range hi).
  cbv zeta. destruct (Z.ltb_spec (Numpy.byte_value lo + 256 * Numpy.byte_value hi) 32768); lia.
Qed.

(** Both float32 roundings are exact on 16-bit integers: the sample is the
    binary64 quotient, checked on all 65536 items. *)
Lemma int16_to_sample_exact (v : Z) :
  (-32768 <= v < 32768)%Z ->
  Numpy.int16_to_sample v = (Numpy.float_of_Z v / 32768)%float.
Proof.
  intros Hv.
  set (check := fun a b : nat =>
    let v := (256 * Z.of_nat a + Z.of_nat b - 32768)%Z in
    Leibniz.eqb (Numpy.int16_to_sample v) (Numpy.float_of_Z v / 32768)%float).
  assert (Hall : forallb (fun a => forallb (check a) (seq 0 256)) (seq 0 256)
                 = true) by (vm_compute; reflexivity).
  pose proof (Z.div_mod (v + 32768) 256 ltac:(lia)) as Hdm.
  pose proof (Z.mod_pos_bound (v + 32768) 256 ltac:(lia)) as Hm.
  assert (0 <= (v + 32768) / 256 < 256)%Z as Hd
    by (split; [apply Z.div_pos; lia | apply Z.div_lt_upper_bound; lia]).
  pose proof (forallb_below _ _ Hall (Z.to_nat ((v + 32768) / 256))
                ltac:(lia)) as Hrow.
  pose proof (forallb_below _ _ Hrow (Z.to_nat ((v + 32768) mod 256))
                ltac:(lia)) as Hc.
  unfold check in Hc. cbv zeta in Hc.
  rewrite !Z2Nat.id in Hc by lia.
  replace (256 * ((v + 32768) / 256) + (v + 32768) mod 256 - 32768)%Z
    with v in Hc by lia.
  apply Leibniz.eqb_spec in Hc. exact Hc.
Qed.

Lemma length_int16_items (bs : bytes) (k : nat) :
  length bs = 2 * k -> length (Numpy.int16_items bs) = k.
Proof.
  revert bs. induction k as [|k IH]; intros bs Hlen.
  - destruct bs; [reflexivity | discriminate].
  - destruct bs as [|lo [|hi rest]]; simpl in Hlen; try lia.
    simpl. f_equal. apply IH. lia.
Qed.

Lemma nth_int16_items (bs : bytes) (i : nat) :
  2 * i + 1 < length bs ->
  nth i (Numpy.int16_items bs) 0%Z = le_int16_at bs i.
Proof.
  revert bs. induction i as [|i IH]; intros bs Hlen.
  - destruct bs as [|lo [|hi rest]]; simpl in Hlen; try lia.
    simpl. unfold le_int16_at. simpl. apply int16_le_value.
  - destruct bs as [|lo [|hi rest]]; simpl in Hlen; try lia.
    simpl Numpy.int16_items. simpl nth. rewrite IH by lia.
    unfold le_int16_at.
    replace (2 * S i) with (S (S (2 * i))) by lia.
    replace (S (S (2 * i)) + 1) with (S (S (2 * i + 1))) by lia.
    reflexivity.
Qed.

Lemma Forall_int16_items_range (bs : bytes) :
  Forall (fun v => (-32768 <= v < 32768)%Z) (Numpy.int16_items bs).
Proof.
  enough (Forall (fun v => (-32768 <= v < 32768)%Z) (Numpy.int16_items bs)
          /\ forall b, Forall (fun v => (-32768 <= v < 32768)%Z)
                         (Numpy.int16_items (b :: bs))) as [Hbs _]
    by exact Hbs.
  induction bs as [|hi rest [IH0 IH1]].
  - split; [constructor | intros b; constructor].
  - split; [apply IH1 |].
    intros lo. simpl. constructor; [apply int16_le_range | exact IH0].
Qed.

(** C6. On a byte sequence of even length [2k] the raw-PCM fallback returns
    exactly [k] samples, the [i]-th being the [i]-th little-endian signed
    16-bit integer of the input divided by 32768.0; and it fails, with
    numpy's ValueError, exactly when the length is not a multiple of 2. *)
Theorem raw_pcm_spec (bs : bytes) :
  (forall k, length bs = 2 * k ->
     exists samples,
       raw_pcm bs = Ok samples /\
       length samples = k /\
       forall i, i < k ->
         nth i samples 0%float
         = (Numpy.float_of_Z (le_int16_at bs i) / 32768)%float)
  /\ (length bs mod 2 <> 0 <->
      raw_pcm bs
      = Raise (ValueError "buffer size must be a multiple of element size")).
Proof.
  unfold raw_pcm, Numpy.frombuffer_int16. split.
  - intros k Hlen.
    assert (length bs mod 2 = 0) as Hmod
      by (rewrite Hlen, Nat.mul_comm; apply Nat.Div0.mod_mul).
    rewrite Hmod. simpl.
    exists (map Numpy.int16_to_sample (Numpy.int16_items bs)).
    split; [reflexivity|]. split.
    + rewrite length_map. apply length_int16_items, Hlen.
    + intros i Hi.
      pose proof (length_int16_items bs k Hlen) as Hk.
      rewrite (nth_indep _ _ (Numpy.int16_to_sample 0))
        by (rewrite length_map; lia).
      rewrite (map_nth Numpy.int16_to_sample).
      rewrite nth_int16_items by lia.
      apply int16_to_sample_exact.
      rewrite <- nth_int16_items by lia.
      pose proof (Forall_int16_items_range bs) as Hall.
      rewrite Forall_forall in Hall. apply Hall.
      apply list_elem_of_In, nth_In. lia.
  - destruct (Nat.eqb_spec (length bs mod 2) 0) as [Heq|Hne].
    + split; [intros Hodd; contradiction | discriminate].
    + split; [reflexivity | intros _; exact Hne].
Qed.

Lemma raw_pcm_spec_witness :
  exists samples,
    raw_pcm [Byte.x00; Byte.x40; Byte.xff; Byte.xff] = Ok samples /\
    length samples = 2 /\
    forall i, i < 2 ->
      nth i samples 0%float
      = (Numpy.float_of_Z
           (le_int16_at [Byte.x00; Byte.x40; Byte.xff; Byte.xff] i)
         / 32768)%float.
Proof.
  apply (proj1 (raw_pcm_spec [Byte.x00; Byte.x40; Byte.xff; Byte.xff]) 2).
  reflexivity.
Defined.

(** ** Running the monad *)

Ltac py_unfold :=
  cbv beta iota zeta delta
    [bind ret raise gets modify lift try_except exec print
     queue_put_nowait queue_get queue_full Thread_new Thread_start Thread_join
     OutputStream_new stream_start stream_stop stream_close
     NamedTemporaryFile file_write os_unlink soundfile_read
     _start_streaming_output
     set_queue set_audio_thread set_playing set_audio_stream
     set_audio_data_buffer set_threads set_streams set_tmpdir set_stdout
     audio_queue audio_thread playing sample_rate audio_stream
     audio_data_buffer threads streams tmpdir stdout maxsize queue
     fst snd id].

(** ** The output callback *)

Lemma setitem_upto_all (outdata value : list float) :
  length value = length outdata ->
  Numpy.setitem_upto outdata (length outdata) value = Ok value.
Proof.
  intros Hlen. unfold Numpy.setitem_upto.
  rewrite Nat.min_id, Hlen, Nat.eqb_refl.
  rewrite drop_all, app_nil_r. reflexivity.
Qed.

Lemma setitem_upto_prefix (outdata value : list float) :
  length value <= length outdata ->
  Numpy.setitem_upto outdata (length value) value
  = Ok (value ++ drop (length value) outdata).
Proof.
  intros Hlen. unfold Numpy.setitem_upto.
  rewrite Nat.min_l by exact Hlen. rewrite Nat.eqb_refl. reflexivity.
Qed.

(** All three branches at once: the callback drains [take frames buffer],
    leaves [drop frames buffer], and delivers the drained samples in the
    device's format followed by silence. *)
Lemma audio_callback_run (outdata : list float) (frames : nat)
    (status : list CallbackFlag) (st : state) :
  length outdata = frames ->
  audio_callback outdata frames status st
  = (Ok (take frames (audio_data_buffer st),
         map Numpy.float32 (take frames (audio_data_buffer st))
         ++ replicate (frames - length (audio_data_buffer st)) 0%float),
     set_audio_data_buffer (drop frames (audio_data_buffer st))
       (reported status st)).
Proof.
  intros <-. unfold audio_callback.
  assert (Hrep : forall (k : unit -> M (list float * list float)),
            bind (match status with
                  | [] => ret tt
                  | _ => print (AudioStatus status)
                  end) k st = k tt (reported status st)).
  { intros k. destruct status; reflexivity. }
  rewrite Hrep. clear Hrep.
  assert (Hbuf : audio_data_buffer (reported status st) = audio_data_buffer st)
    by (destruct status, st; reflexivity).
  set (st1 := reported status st) in *.
  unfold bind at 1. unfold gets at 1. cbv beta iota. rewrite Hbuf.
  set (buffer := audio_data_buffer st) in *.
  destruct (Nat.leb_spec (length outdata) (length buffer)) as [Hle|Hlt].
  - unfold bind, modify, lift, ret.
    rewrite setitem_upto_all
      by (rewrite length_map, length_take; lia).
    replace (length outdata - length buffer) with 0 by lia.
    simpl replicate. rewrite app_nil_r. reflexivity.
  - destruct (Nat.ltb_spec 0 (length buffer)) as [Hpos|Hzero].
    + unfold bind, modify, lift, ret.
      rewrite <- (length_map Numpy.float32 buffer).
      rewrite setitem_upto_prefix by (rewrite length_map; lia).
      unfold Numpy.setitem_from.
      rewrite take_app_length.
      rewrite length_app, length_drop, !length_map.
      rewrite take_ge, drop_ge by lia.
      replace (length buffer + (length outdata - length buffer) - length buffer)
        with (length outdata - length buffer) by lia.
      reflexivity.
    + assert (buffer = []) as Hnil
        by (destruct buffer; simpl in *; [reflexivity | lia]).
      rewrite Hnil.
      unfold ret, Numpy.fill. rewrite take_nil, drop_nil. simpl.
      rewrite Nat.sub_0_r.
      replace (set_audio_data_buffer [] st1) with st1; [reflexivity|].
      subst st1 buffer. destruct st, status; simpl in *; subst; reflexivity.
Qed.

(** Samples the raw-PCM reading produces are binary32 values. *)
Lemma float32_int16_to_sample (v : Z) :
  (-32768 <= v < 32768)%Z ->
  binary32 (Numpy.int16_to_sample v).
Proof.
  intros Hv. unfold binary32.
  set (check := fun a b : nat =>
    let v := (256 * Z.of_nat a + Z.of_nat b - 32768)%Z in
    Leibniz.eqb (Numpy.float32 (Numpy.int16_to_sample v))
      (Numpy.int16_to_sample v)).
  assert (Hall : forallb (fun a => forallb (check a) (seq 0 256)) (seq 0 256)
                 = true) by (vm_compute; reflexivity).
  pose proof (Z.div_mod (v + 32768) 256 ltac:(lia)) as Hdm.
  pose proof (Z.mod_pos_bound (v + 32768) 256 ltac:(lia)) as Hm.
  assert (0 <= (v + 32768) / 256 < 256)%Z as Hd
    by (split; [apply Z.div_pos; lia | apply Z.div_lt_upper_bound; lia]).
  pose proof (forallb_below _ _ Hall (Z.to_nat ((v + 32768) / 256))
                ltac:(lia)) as Hrow.
  pose proof (forallb_below _ _ Hrow (Z.to_nat ((v + 32768) mod 256))
                ltac:(lia)) as Hc.
  unfold check in Hc. cbv zeta in Hc.
  rewrite !Z2Nat.id in Hc by lia.
  replace (256 * ((v + 32768) / 256) + (v + 32768) mod 256 - 32768)%Z
    with v in Hc by lia.
  apply Leibniz.eqb_spec in Hc. exact Hc.
Qed.

Lemma raw_pcm_binary32 (bs : bytes) (samples : list float) :
  raw_pcm bs = Ok samples -> Forall binary32 samples.
Proof.
  unfold raw_pcm, Numpy.frombuffer_int16.
  destruct (length bs mod 2 =? 0)%nat; [|discriminate].
  intros [= <-]. apply Forall_map.
  eapply Forall_impl; [apply Forall_int16_items_range|].
  intros v Hv. apply float32_int16_to_sample, Hv.
Qed.

Lemma map_float32_binary32 (samples : list float) :
  Forall binary32 samples -> map Numpy.float32 samples = samples.
Proof.
  induction 1 as [|x l Hx _ IH]; [reflexivity|].
  simpl. rewrite Hx, IH. reflexivity.
Qed.

(** C2. One invocation of the output callback on a device buffer of
    [frames] rows.  With at least [frames] samples buffered, exactly
    [frames] samples leave the head and are the output (a buffer of 2000
    samples with [frames = 1024] is left with 976); with [k] samples,
    [0 < k < frames], the output starts with those [k] samples, ends with
    [frames - k] zeros, and the buffer is empty afterward; with an empty
    buffer the output is [frames] zeros.  The output holds the samples in
    the device's 32-bit format: as they are when they are binary32 values,
    which the samples of the raw-PCM reading always are. *)
Theorem audio_callback_cases (outdata : list float) (frames : nat)
    (status : list CallbackFlag) (st : state) :
  length outdata = frames ->
  exists chunk out st',
    audio_callback outdata frames status st = (Ok (chunk, out), st') /\
    length out = frames /\
    (frames <= length (audio_data_buffer st) ->
       chunk = take frames (audio_data_buffer st) /\
       length chunk = frames /\
       out = map Numpy.float32 chunk /\
       audio_data_buffer st' = drop frames (audio_data_buffer st)) /\
    (length (audio_data_buffer st) = 2000 -> frames = 1024 ->
       length (audio_data_buffer st') = 976) /\
    (0 < length (audio_data_buffer st) < frames ->
       chunk = audio_data_buffer st /\
       take (length chunk) out = map Numpy.float32 chunk /\
       drop (length chunk) out = replicate (frames - length chunk) 0%float /\
       audio_data_buffer st' = []) /\
    (length (audio_data_buffer st) = 0 ->
       out = replicate frames 0%float /\ audio_data_buffer st' = []) /\
    (Forall binary32 (audio_data_buffer st) ->
       out = chunk ++ replicate (frames - length chunk) 0%float).
Proof.
  intros Hout.
  rewrite (audio_callback_run outdata frames status st Hout).
  set (buffer := audio_data_buffer st).
  eexists _, _, _. split; [reflexivity|].
  assert (Hbuf' : audio_data_buffer
            (set_audio_data_buffer (drop frames buffer) (reported status st))
          = drop frames buffer) by reflexivity.
  rewrite Hbuf'.
  split; [|split; [|split; [|split; [|split]]]].
  - rewrite length_app, length_map, length_take, length_replicate. lia.
  - intros Hle. split; [reflexivity|].
    split; [rewrite length_take; lia|].
    split; [|reflexivity].
    replace (frames - length buffer) with 0 by lia.
    simpl. apply app_nil_r.
  - intros H2000 H1024. rewrite length_drop. lia.
  - intros [Hpos Hlt].
    rewrite take_ge by lia.
    split; [reflexivity|].
    rewrite <- (length_map Numpy.float32 buffer).
    rewrite take_app_length, drop_app_length, length_map.
    split; [reflexivity|]. split; [reflexivity|].
    apply drop_ge. lia.
  - intros Hzero.
    assert (buffer = []) as -> by (destruct buffer; [reflexivity|discriminate]).
    rewrite take_nil, drop_nil. simpl. rewrite Nat.sub_0_r.
    split; reflexivity.
  - intros Hb32.
    rewrite map_float32_binary32 by (apply Forall_take, Hb32).
    f_equal. f_equal. rewrite length_take. lia.
Qed.

Lemma audio_callback_cases_witness :
  exists chunk out st',
    audio_callback (replicate 1024 0%float) 1024 []
      (set_audio_data_buffer (replicate 2000 0.25%float) (__init__ 48000))
    = (Ok (chunk, out), st') /\
    length out = 1024 /\
    length (audio_data_buffer st') = 976.
Proof.
  destruct (audio_callback_cases (replicate 1024 0%float) 1024 []
              (set_audio_data_buffer (replicate 2000 0.25%float)
                 (__init__ 48000)) eq_refl)
    as (chunk & out & st' & Hrun & Hlen & _ & H976 & _).
  exists chunk, out, st'.
  split; [exact Hrun|]. split; [exact Hlen|].
  apply H976; reflexivity.
Defined.

(** A sample that is not a binary32 value is rounded on its way out. *)
Example audio_callback_rounds :
  fst (audio_callback [0%float] 1 []
         (set_audio_data_buffer [0x1.999999999999ap-4%float] (__init__ 48000)))
  = Ok ([0x1.999999999999ap-4%float], [0x1.99999ap-4%float]).
Proof. vm_compute. reflexivity. Qed.

(** C8. Draining inside the callback: for every [n] the callback returns,
    whatever the buffer holds; what it drained is at most [n] samples, taken
    from the head, and when fewer than [n] are buffered it is exactly the
    buffered samples (none, for an empty buffer). *)
Theorem drain_bounded (outdata : list float) (n : nat)
    (status : list CallbackFlag) (st : state) :
  length outdata = n ->
  exists chunk out st',
    audio_callback outdata n status st = (Ok (chunk, out), st') /\
    length chunk <= n /\
    chunk ++ audio_data_buffer st' = audio_data_buffer st /\
    (length (audio_data_buffer st) < n ->
       chunk = audio_data_buffer st /\ audio_data_buffer st' = []).
Proof.
  intros Hout.
  rewrite (audio_callback_run outdata n status st Hout).
  eexists _, _, _. split; [reflexivity|].
  assert (Hbuf' : forall b,
            audio_data_buffer (set_audio_data_buffer b (reported status st))
            = b) by reflexivity.
  rewrite Hbuf'.
  split; [rewrite length_take; lia|].
  split; [apply take_drop|].
  intros Hlt. split; [apply take_ge; lia | apply drop_ge; lia].
Qed.

Lemma drain_bounded_witness :
  exists chunk out st',
    audio_callback (replicate 4 0%float) 4 []
      (set_audio_data_buffer [0.5%float; 0.25%float] (__init__ 48000))
    = (Ok (chunk, out), st') /\
    chunk = [0.5%float; 0.25%float] /\ audio_data_buffer st' = [].
Proof.
  destruct (drain_bounded (replicate 4 0%float) 4 []
              (set_audio_data_buffer [0.5%float; 0.25%float] (__init__ 48000))
              eq_refl)
    as (chunk & out & st' & Hrun & _ & _ & Hshort).
  exists chunk, out, st'. split; [exact Hrun|].
  apply Hshort. simpl. lia.
Defined.

(** ** One pass of the worker loop *)

Section WorkerFacts.
Context `{SoundFile}.

Lemma tmpdir_fresh (d : gmap nat bytes) : d !! fresh (dom d) = None.
Proof. apply not_elem_of_dom, is_fresh. Qed.

Lemma worker_iteration_empty (st : state) :
  queue (audio_queue st) = [] ->
  worker_iteration st = (Ok Next, st).
Proof.
  destruct st as [[mx q] th pl sr os buf ths sts tmp out]. simpl.
  intros ->. reflexivity.
Qed.

Lemma worker_iteration_sentinel (st : state) (rest : list (option bytes)) :
  queue (audio_queue st) = None :: rest ->
  worker_iteration st = (Ok Break, set_queue rest st).
Proof.
  destruct st as [[mx q] th pl sr os buf ths sts tmp out]. simpl.
  intros ->. reflexivity.
Qed.

Lemma worker_iteration_decoded (st : state) (data : bytes)
    (rest : list (option bytes)) (audio_array : list float) (rate : Z) :
  queue (audio_queue st) = Some data :: rest ->
  sf_decode data = Ok (audio_array, rate) ->
  worker_iteration st
  = (Ok Next,
     set_stdout (stdout st ++ [AddedChunk (length audio_array) rate])
       (set_audio_data_buffer (audio_data_buffer st ++ audio_array)
          (set_queue rest st))).
Proof.
  destruct st as [[mx q] th pl sr os buf ths sts tmp out]. simpl.
  intros -> Hdec. unfold worker_iteration. py_unfold.
  rewrite insert_insert_eq, !lookup_insert_eq. simpl.
  rewrite Hdec. py_unfold. rewrite lookup_insert_eq.
  rewrite delete_insert_eq, delete_id by apply tmpdir_fresh.
  reflexivity.
Qed.

Lemma worker_iteration_fallback (st : state) (data : bytes)
    (rest : list (option bytes)) (e : exception) (audio_array : list float) :
  queue (audio_queue st) = Some data :: rest ->
  sf_decode data = Raise e ->
  raw_pcm data = Ok audio_array ->
  worker_iteration st
  = (Ok Next,
     set_stdout (stdout st ++ [FailedDecode e; AddedRawPCM (length audio_array)])
       (set_audio_data_buffer (audio_data_buffer st ++ audio_array)
          (set_tmpdir (<[fresh (dom (tmpdir st)) := data]> (tmpdir st))
             (set_queue rest st)))).
Proof.
  destruct st as [[mx q] th pl sr os buf ths sts tmp out]. simpl.
  intros -> Hdec Hpcm. unfold worker_iteration. py_unfold.
  rewrite insert_insert_eq, !lookup_insert_eq. simpl.
  rewrite Hdec, Hpcm. py_unfold. rewrite <- app_assoc. reflexivity.
Qed.

Lemma worker_iteration_dropped (st : state) (data : bytes)
    (rest : list (option bytes)) (e e' : exception) :
  queue (audio_queue st) = Some data :: rest ->
  sf_decode data = Raise e ->
  raw_pcm data = Raise e' ->
  worker_iteration st
  = (Ok Next,
     set_stdout (stdout st ++ [FailedDecode e; FailedProcess e'])
       (set_tmpdir (<[fresh (dom (tmpdir st)) := data]> (tmpdir st))
          (set_queue rest st))).
Proof.
  destruct st as [[mx q] th pl sr os buf ths sts tmp out]. simpl.
  intros -> Hdec Hpcm. unfold worker_iteration. py_unfold.
  rewrite insert_insert_eq, !lookup_insert_eq. simpl.
  rewrite Hdec, Hpcm. py_unfold. rewrite <- app_assoc. reflexivity.
Qed.

(** A frame for the attributes a pass never touches. *)
Lemma worker_iteration_chunk (st : state) (data : bytes)
    (rest : list (option bytes)) :
  queue (audio_queue st) = Some data :: rest ->
  exists st',
    worker_iteration st = (Ok Next, st') /\
    audio_data_buffer st' = audio_data_buffer st ++ decoded data /\
    queue (audio_queue st') = rest /\
    maxsize (audio_queue st') = maxsize (audio_queue st) /\
    playing st' = playing st /\
    threads st' = threads st /\
    streams st' = streams st /\
    audio_thread st' = audio_thread st /\
    audio_stream st' = audio_stream st.
Proof.
  intros Hq. unfold decoded.
  destruct (sf_decode data) as [[audio_array rate]|e] eqn:Hdec.
  - rewrite (worker_iteration_decoded st data rest audio_array rate Hq Hdec).
    eexists. split; [reflexivity|]. repeat split.
  - destruct (raw_pcm data) as [audio_array|e'] eqn:Hpcm.
    + rewrite (worker_iteration_fallback st data rest e audio_array Hq Hdec Hpcm).
      eexists. split; [reflexivity|]. repeat split.
    + rewrite (worker_iteration_dropped st data rest e e' Hq Hdec Hpcm).
      eexists. split; [reflexivity|]. simpl. rewrite app_nil_r. repeat split.
Qed.

(** ** One turn of a worker thread *)

Lemma is_alive_lt (tid : nat) (st : state) :
  is_alive tid st = true -> tid < length (threads st).
Proof.
  unfold is_alive. destruct (threads st !! tid) eqn:Hl; [|discriminate].
  intros _. eapply lookup_lt_Some, Hl.
Qed.

Lemma is_alive_set_dead (tid : nat) (ts : list bool) (st : state) :
  is_alive tid (set_threads (<[tid := false]> ts) st) = false.
Proof.
  unfold is_alive. simpl.
  destruct (decide (tid < length ts)) as [Hlt|Hge].
  - rewrite list_lookup_insert_eq by exact Hlt. reflexivity.
  - rewrite list_insert_ge by lia.
    rewrite lookup_ge_None_2 by lia. reflexivity.
Qed.

Lemma worker_turn_dead (tid : nat) (st : state) :
  is_alive tid st = false -> worker_turn tid st = st.
Proof. unfold worker_turn. intros ->. reflexivity. Qed.

Lemma worker_turn_stopped (tid : nat) (st : state) :
  is_alive tid st = true -> playing st = false ->
  worker_turn tid st = set_threads (<[tid := false]> (threads st)) st.
Proof.
  unfold worker_turn. intros -> Hp. simpl.
  unfold bind, gets. rewrite Hp. reflexivity.
Qed.

Lemma worker_turn_pass (tid : nat) (st : state) :
  is_alive tid st = true -> playing st = true ->
  worker_turn tid st
  = match worker_iteration st with
    | (Ok Next, st') => st'
    | (_, st') => set_threads (<[tid := false]> (threads st')) st'
    end.
Proof.
  unfold worker_turn. intros -> Hp. simpl.
  unfold bind at 1. unfold gets at 1. rewrite Hp.
  unfold bind, ret.
  destruct (worker_iteration st) as [[[|]|e] st']; reflexivity.
Qed.

Lemma is_alive_frame (tid : nat) (st st' : state) :
  threads st' = threads st -> is_alive tid st' = is_alive tid st.
Proof. unfold is_alive. intros ->. reflexivity. Qed.

Lemma worker_turn_chunk (tid : nat) (st : state) (data : bytes)
    (rest : list (option bytes)) :
  is_alive tid st = true -> playing st = true ->
  queue (audio_queue st) = Some data :: rest ->
  worker_iteration st = (Ok Next, worker_turn tid st).
Proof.
  intros Ha Hp Hq. rewrite worker_turn_pass by assumption.
  destruct (worker_iteration_chunk st data rest Hq) as (st' & -> & _).
  reflexivity.
Qed.

Lemma worker_turn_sentinel (tid : nat) (st : state)
    (rest : list (option bytes)) :
  is_alive tid st = true -> playing st = true ->
  queue (audio_queue st) = None :: rest ->
  worker_turn tid st
  = set_threads (<[tid := false]> (threads st)) (set_queue rest st).
Proof.
  intros Ha Hp Hq. rewrite worker_turn_pass by assumption.
  rewrite (worker_iteration_sentinel st rest Hq). reflexivity.
Qed.

(** C3 (as amended). A chunk that fails the container decode and the raw-PCM
    fallback costs the worker nothing but the chunk: the pass appends no
    sample, removes the chunk from the queue, prints both failures and
    returns to the loop test without raising, the thread alive.  The loop is
    left in two ways only: the [playing] flag is down at the loop test, or
    the item taken from the queue is the [None] sentinel. *)
Theorem worker_survives_bad_chunk :
  (forall (st : state) (tid : nat) (data : bytes)
          (rest : list (option bytes)) (e e' : exception),
     is_alive tid st = true -> playing st = true ->
     queue (audio_queue st) = Some data :: rest ->
     sf_decode data = Raise e -> raw_pcm data = Raise e' ->
     worker_iteration st = (Ok Next, worker_turn tid st) /\
     audio_data_buffer (worker_turn tid st) = audio_data_buffer st /\
     queue (audio_queue (worker_turn tid st)) = rest /\
     stdout (worker_turn tid st)
     = stdout st ++ [FailedDecode e; FailedProcess e'] /\
     is_alive tid (worker_turn tid st) = true /\
     playing (worker_turn tid st) = true)
  /\ (forall (st : state) (tid : nat),
       is_alive tid st = true ->
       (is_alive tid (worker_turn tid st) = false <->
        playing st = false \/
        exists rest, queue (audio_queue st) = None :: rest)).
Proof.
  split.
  - intros st tid data rest e e' Ha Hp Hq Hdec Hpcm.
    pose proof (worker_turn_chunk tid st data rest Ha Hp Hq) as Hturn.
    rewrite (worker_iteration_dropped st data rest e e' Hq Hdec Hpcm) in Hturn.
    injection Hturn as Hturn. rewrite <- Hturn.
    split; [apply worker_iteration_dropped; assumption|].
    split; [reflexivity|]. split; [reflexivity|]. split; [reflexivity|].
    split; [exact Ha | exact Hp].
  - intros st tid Ha. split.
    + intros Hdead. destruct (playing st) eqn:Hp; [right | left; reflexivity].
      destruct (queue (audio_queue st)) as [|[data|] rest] eqn:Hq.
      * rewrite worker_turn_pass, worker_iteration_empty in Hdead
          by assumption.
        congruence.
      * pose proof (worker_turn_chunk tid st data rest Ha Hp Hq) as Hturn.
        destruct (worker_iteration_chunk st data rest Hq)
          as (st' & Hrun & _ & _ & _ & _ & Hths & _).
        rewrite Hrun in Hturn. injection Hturn as Hturn.
        rewrite <- Hturn, (is_alive_frame tid st st' Hths) in Hdead.
        congruence.
      * exists rest. reflexivity.
    + intros [Hp|[rest Hq]].
      * rewrite worker_turn_stopped by assumption.
        apply is_alive_set_dead.
      * destruct (playing st) eqn:Hp.
        -- rewrite (worker_turn_sentinel tid st rest Ha Hp Hq).
           apply (is_alive_set_dead tid (threads st) (set_queue rest st)).
        -- rewrite worker_turn_stopped by assumption.
           apply is_alive_set_dead.
Qed.

(** C4 (the defect). When the container decode fails the pass never reaches
    [os.unlink]: the scratch file written for the chunk is still in the
    temporary directory afterwards, whichever way the fallback goes. *)
Theorem scratch_file_left_on_decode_failure (st : state) (data : bytes)
    (rest : list (option bytes)) (e : exception) :
  queue (audio_queue st) = Some data :: rest ->
  sf_decode data = Raise e ->
  tmpdir (exec worker_iteration st)
  = <[fresh (dom (tmpdir st)) := data]> (tmpdir st)
  /\ tmpdir st !! fresh (dom (tmpdir st)) = None
  /\ size (tmpdir (exec worker_iteration st)) = S (size (tmpdir st)).
Proof.
  intros Hq Hdec.
  assert (Htmp : tmpdir (exec worker_iteration st)
                 = <[fresh (dom (tmpdir st)) := data]> (tmpdir st)).
  { unfold exec. destruct (raw_pcm data) as [audio_array|e'] eqn:Hpcm.
    - rewrite (worker_iteration_fallback st data rest e audio_array Hq Hdec Hpcm).
      reflexivity.
    - rewrite (worker_iteration_dropped st data rest e e' Hq Hdec Hpcm).
      reflexivity. }
  rewrite Htmp. split; [reflexivity|].
  split; [apply tmpdir_fresh|].
  apply map_size_insert_None, tmpdir_fresh.
Qed.

(** The success path does release it. *)
Lemma scratch_file_released_on_success (st : state) (data : bytes)
    (rest : list (option bytes)) (audio_array : list float) (rate : Z) :
  queue (audio_queue st) = Some data :: rest ->
  sf_decode data = Ok (audio_array, rate) ->
  tmpdir (exec worker_iteration st) = tmpdir st.
Proof.
  intros Hq Hdec. unfold exec.
  rewrite (worker_iteration_decoded st data rest audio_array rate Hq Hdec).
  reflexivity.
Qed.

End WorkerFacts.

Lemma worker_survives_bad_chunk_witness :
  let st := exec (add_audio_chunk (Some [Byte.x01; Byte.x02; Byte.x03]))
              (exec start (__init__ 48000)) in
  audio_data_buffer (@worker_turn headerless 0 st) = audio_data_buffer st /\
  queue (audio_queue (@worker_turn headerless 0 st)) = [] /\
  is_alive 0 (@worker_turn headerless 0 st) = true.
Proof.
  intros st.
  destruct (proj1 (@worker_survives_bad_chunk headerless) st 0
              [Byte.x01; Byte.x02; Byte.x03] []
              (LibsndfileError "Format not recognised.")
              (ValueError "buffer size must be a multiple of element size")
              eq_refl eq_refl eq_refl eq_refl eq_refl)
    as (_ & Hbuf & Hq & _ & Ha & _).
  split; [exact Hbuf|]. split; [exact Hq | exact Ha].
Defined.

(** The loop has a second way out, which the specification leaves unsaid:
    with the flag up, the worker that takes [None] from the queue leaves
    its loop. *)
Lemma worker_exits_while_running :
  let st := exec (add_audio_chunk None) (exec start (__init__ 48000)) in
  playing st = true /\ is_alive 0 st = true /\
  is_alive 0 (@worker_turn headerless 0 st) = false /\
  playing (@worker_turn headerless 0 st) = true.
Proof. vm_compute. repeat split. Qed.

Lemma scratch_file_left_on_decode_failure_witness :
  let st := exec (add_audio_chunk (Some [Byte.x00; Byte.x40]))
              (exec start (__init__ 48000)) in
  tmpdir st = ∅ /\
  tmpdir (exec (@worker_iteration headerless) st)
  = <[fresh (dom (tmpdir st)) := [Byte.x00; Byte.x40]]> (tmpdir st) /\
  size (tmpdir (exec (@worker_iteration headerless) st)) = 1.
Proof.
  intros st.
  destruct (@scratch_file_left_on_decode_failure headerless st
              [Byte.x00; Byte.x40] []
              (LibsndfileError "Format not recognised.") eq_refl eq_refl)
    as (Htmp & _ & Hsize).
  split; [reflexivity|]. split; [exact Htmp | exact Hsize].
Defined.

(** ** Submission *)

Lemma add_audio_chunk_run (audio_data : option bytes) (st : state) :
  add_audio_chunk audio_data st
  = (Ok tt,
     if queue_full (audio_queue st)
     then set_stdout (stdout st ++ [QueueFullDropping]) st
     else set_queue (queue (audio_queue st) ++ [audio_data]) st).
Proof.
  unfold add_audio_chunk, try_except, queue_put_nowait, bind, gets.
  destruct (queue_full (audio_queue st)); reflexivity.
Qed.

(** C5. [add_audio_chunk] returns at once and never raises, whatever it is
    given and whatever the state.  On a queue at capacity the chunk is
    dropped: the queue is as before and the drop is printed.  Otherwise the
    chunk joins the tail of the queue and nothing is printed. *)
Theorem add_audio_chunk_never_raises (audio_data : option bytes)
    (st : state) :
  fst (add_audio_chunk audio_data st) = Ok tt /\
  (queue_full (audio_queue st) = true ->
     exec (add_audio_chunk audio_data) st
     = set_stdout (stdout st ++ [QueueFullDropping]) st /\
     queue (audio_queue (exec (add_audio_chunk audio_data) st))
     = queue (audio_queue st)) /\
  (queue_full (audio_queue st) = false ->
     exec (add_audio_chunk audio_data) st
     = set_queue (queue (audio_queue st) ++ [audio_data]) st /\
     stdout (exec (add_audio_chunk audio_data) st) = stdout st).
Proof.
  unfold exec. rewrite add_audio_chunk_run.
  split; [reflexivity|].
  split; intros ->; split; reflexivity.
Qed.

Lemma add_audio_chunk_never_raises_witness :
  let st := mkState (mkQueue 1 [Some [Byte.x00]]) None false 48000 None []
              [] [] ∅ [] in
  fst (add_audio_chunk (Some [Byte.x01]) st) = Ok tt /\
  exec (add_audio_chunk (Some [Byte.x01])) st
  = set_stdout (stdout st ++ [QueueFullDropping]) st /\
  queue (audio_queue (exec (add_audio_chunk (Some [Byte.x01])) st))
  = [Some [Byte.x00]].
Proof.
  intros st.
  destruct (add_audio_chunk_never_raises (Some [Byte.x01]) st)
    as (Hok & Hfull & _).
  destruct (Hfull eq_refl) as (Hst & Hq).
  split; [exact Hok|]. split; [exact Hst | exact Hq].
Defined.

(** The queue [__init__] builds is never at capacity. *)
Lemma unbounded_never_full (st : state) :
  unbounded st -> queue_full (audio_queue st) = false.
Proof.
  unfold unbounded, queue_full. intros Hmax.
  destruct (Z.ltb_spec 0 (maxsize (audio_queue st))); [lia | reflexivity].
Qed.

Lemma add_audio_chunk_unbounded (audio_data : option bytes) (st : state) :
  unbounded st ->
  add_audio_chunk audio_data st
  = (Ok tt, set_queue (queue (audio_queue st) ++ [audio_data]) st).
Proof.
  intros Hmax.
  rewrite add_audio_chunk_run, unbounded_never_full by exact Hmax.
  reflexivity.
Qed.

(** ** Start and stop *)

Lemma insert_snoc {A} (l : list A) (x y : A) :
  <[length l := y]> (l ++ [x]) = l ++ [y].
Proof.
  replace (length l) with (length l + 0) by lia.
  rewrite insert_app_r. reflexivity.
Qed.

Lemma start_when_alive (st : state) :
  worker_alive st -> start st = (Ok tt, st).
Proof.
  intros (tid & Hth & Ha). unfold start, bind, gets. simpl.
  rewrite Hth, Ha. reflexivity.
Qed.

(** What [start] builds when no worker is alive. *)
Lemma start_when_not_alive (st : state) :
  worker_dead st ->
  start st
  = (Ok tt,
     set_stdout (stdout st ++ [StartedStreaming (sample_rate st)])
       (set_streams (streams st ++ [Active])
          (set_audio_stream (Some (length (streams st)))
             (set_threads (threads st ++ [true])
                (set_audio_thread (Some (length (threads st)))
                   (set_playing true st)))))).
Proof.
  intros Hdead.
  destruct st as [[mx q] th pl sr os buf ths sts tmp out].
  unfold start. py_unfold.
  cbv beta iota zeta delta [worker_dead audio_thread] in Hdead.
  assert ((match th with
           | None => true
           | Some tid =>
             negb (is_alive tid
                     (mkState (mkQueue mx q) th pl sr os buf ths sts tmp out))
           end) = true) as ->.
  { destruct th; [rewrite Hdead|]; reflexivity. }
  rewrite list_lookup_middle by reflexivity.
  rewrite !insert_snoc. reflexivity.
Qed.

Lemma stop_run (st : state) :
  stop st
  = (Ok tt,
     match audio_stream st with
     | Some sid => set_streams (<[sid := Closed]> (streams st))
                     (set_playing false st)
     | None => set_playing false st
     end).
Proof.
  destruct st as [[mx q] th pl sr os buf ths sts tmp out].
  unfold stop. py_unfold.
  destruct os as [sid|].
  - assert (<[sid := Closed]>
              (match sts !! sid with
               | Some Active => <[sid := Inactive]> sts
               | _ => sts
               end) = <[sid := Closed]> sts) as Hclose.
    { destruct (sts !! sid) as [[| |]|]; try reflexivity.
      apply list_insert_insert_eq. }
    destruct (sts !! sid) as [[| |]|] eqn:Hl;
      rewrite ?list_insert_insert_eq;
      destruct th as [tid|]; cbv beta iota zeta;
      try destruct (is_alive tid _); reflexivity.
  - destruct th as [tid|]; cbv beta iota zeta;
      try destruct (is_alive tid _); reflexivity.
Qed.


(** ** Traces *)

Section Pipeline.
Context `{SoundFile}.

Lemma run_app (st : state) (a b : list event) :
  run st (a ++ b)
  = let '(st1, out1) := run st a in
    let '(st2, out2) := run st1 b in
    (st2, out1 ++ out2).
Proof.
  revert st. induction a as [|ev a IH]; intros st.
  - simpl. destruct (run st b). reflexivity.
  - simpl. destruct (step st ev) as [st1 out1]. rewrite IH.
    destruct (run st1 a) as [st2 out2]. destruct (run st2 b) as [st3 out3].
    rewrite app_assoc. reflexivity.
Qed.

Lemma drained_app (a b : list (list float * list float)) :
  drained (a ++ b) = drained a ++ drained b.
Proof. unfold drained. rewrite map_app, concat_app. reflexivity. Qed.

Lemma same_lifecycle_refl (st : state) : same_lifecycle st st.
Proof. repeat split. Qed.

Lemma same_lifecycle_trans (st1 st2 st3 : state) :
  same_lifecycle st1 st2 -> same_lifecycle st2 st3 -> same_lifecycle st1 st3.
Proof.
  unfold same_lifecycle.
  intros (? & ? & ? & ? & ? & ?) (? & ? & ? & ? & ? & ?).
  repeat split; congruence.
Qed.

Lemma same_lifecycle_alive (tid : nat) (st st' : state) :
  same_lifecycle st st' -> is_alive tid st' = is_alive tid st.
Proof. intros (_ & Hths & _). apply is_alive_frame, Hths. Qed.

Lemma same_lifecycle_active (sid : nat) (st st' : state) :
  same_lifecycle st st' -> is_active sid st' = is_active sid st.
Proof. intros (_ & _ & Hsts & _). unfold is_active. rewrite Hsts. reflexivity. Qed.

Lemma step_callback (st : state) (sid : nat) (outdata : list float)
    (status : list CallbackFlag) :
  is_active sid st = true ->
  step st (DeviceCallback sid outdata status)
  = (set_audio_data_buffer (drop (length outdata) (audio_data_buffer st))
       (reported status st),
     [(take (length outdata) (audio_data_buffer st),
       map Numpy.float32 (take (length outdata) (audio_data_buffer st))
       ++ replicate (length outdata - length (audio_data_buffer st)) 0%float)]).
Proof.
  intros Ha. cbn [step]. rewrite Ha.
  rewrite (audio_callback_run outdata (length outdata) status st eq_refl).
  reflexivity.
Qed.

Lemma reported_frame (status : list CallbackFlag) (st : state) :
  same_lifecycle st (reported status st) /\
  audio_queue (reported status st) = audio_queue st /\
  audio_data_buffer (reported status st) = audio_data_buffer st.
Proof. destruct status; repeat split. Qed.

(** What a turn of a live worker does to the queue and the buffer. *)
Lemma worker_turn_frame (tid : nat) (st : state) :
  playing st = true ->
  chunks_only st ->
  same_lifecycle st (worker_turn tid st) /\
  in_flight (worker_turn tid st) = in_flight st /\
  chunks_only (worker_turn tid st) /\
  (is_alive tid st = true ->
   forall item rest, queue (audio_queue st) = item :: rest ->
     queue (audio_queue (worker_turn tid st)) = rest).
Proof.
  intros Hp Hchunks.
  destruct (is_alive tid st) eqn:Ha.
  2:{ rewrite worker_turn_dead by exact Ha.
      split; [apply same_lifecycle_refl|].
      split; [reflexivity|]. split; [exact Hchunks | discriminate]. }
  destruct (queue (audio_queue st)) as [|[data|] rest] eqn:Hq.
  - rewrite worker_turn_pass, worker_iteration_empty by assumption.
    split; [apply same_lifecycle_refl|].
    split; [reflexivity|]. split; [exact Hchunks|]. intros _ ? ? Hq'.
    discriminate.
  - pose proof (worker_turn_chunk tid st data rest Ha Hp Hq) as Hturn.
    destruct (worker_iteration_chunk st data rest Hq)
      as (st' & Hrun & Hbuf & Hq' & Hmax & Hp' & Hths & Hsts & Hth & Hos).
    rewrite Hrun in Hturn. injection Hturn as <-.
    split; [repeat split; assumption|].
    split; [|split].
    + unfold in_flight, pending. rewrite Hbuf, Hq', Hq. simpl.
      rewrite <- app_assoc. reflexivity.
    + unfold chunks_only in *. rewrite Hq'. rewrite Hq in Hchunks.
      eapply Forall_inv_tail, Hchunks.
    + intros _ item rest' Hq''. congruence.
  - unfold chunks_only in Hchunks. rewrite Hq in Hchunks.
    apply Forall_inv in Hchunks. congruence.
Qed.

(** A pass whose test was made earlier: what it is, and what it leaves
    alone. *)
Lemma worker_late_pass_dead (tid : nat) (st : state) :
  is_alive tid st = false -> worker_late_pass tid st = st.
Proof. unfold worker_late_pass. intros ->. reflexivity. Qed.

Lemma worker_late_pass_running (tid : nat) (st : state) :
  playing st = true -> worker_late_pass tid st = worker_turn tid st.
Proof.
  intros Hp. destruct (is_alive tid st) eqn:Ha.
  - rewrite (worker_turn_pass tid st Ha Hp). unfold worker_late_pass.
    rewrite Ha. reflexivity.
  - rewrite worker_late_pass_dead, worker_turn_dead by exact Ha. reflexivity.
Qed.

Lemma worker_late_pass_frame (tid : nat) (st : state) :
  playing (worker_late_pass tid st) = playing st /\
  maxsize (audio_queue (worker_late_pass tid st)) = maxsize (audio_queue st) /\
  streams (worker_late_pass tid st) = streams st /\
  audio_thread (worker_late_pass tid st) = audio_thread st /\
  audio_stream (worker_late_pass tid st) = audio_stream st /\
  exists k,
    queue (audio_queue (worker_late_pass tid st))
    = drop k (queue (audio_queue st)).
Proof.
  destruct (is_alive tid st) eqn:Ha.
  2:{ rewrite worker_late_pass_dead by exact Ha.
      repeat (split; [reflexivity|]). exists 0. reflexivity. }
  unfold worker_late_pass. rewrite Ha.
  destruct (queue (audio_queue st)) as [|[data|] rest] eqn:Hq.
  - rewrite (worker_iteration_empty st Hq).
    repeat (split; [reflexivity|]). exists 0. rewrite Hq. reflexivity.
  - destruct (worker_iteration_chunk st data rest Hq)
      as (st' & -> & _ & Hq' & Hmax & Hp & _ & Hsts & Hth & Hos).
    repeat (split; [assumption|]). exists 1. rewrite Hq'. reflexivity.
  - rewrite (worker_iteration_sentinel st rest Hq).
    repeat (split; [reflexivity|]). exists 1. reflexivity.
Qed.

(** One step of a stream in use moves samples forward and loses none. *)
Lemma step_conserves (st : state) (ev : event) :
  pipeline_event ev = true ->
  playing st = true -> unbounded st -> chunks_only st ->
  drained (snd (step st ev)) ++ in_flight (fst (step st ev))
  = in_flight st ++ flat_map decoded (submitted [ev])
  /\ same_lifecycle st (fst (step st ev))
  /\ chunks_only (fst (step st ev)).
Proof.
  intros Hev Hp Hmax Hchunks.
  destruct ev as [| |[data|]|tid|sid outdata status|tid]; try discriminate.
  - cbn [step]. unfold exec.
    rewrite add_audio_chunk_unbounded by exact Hmax. cbn [fst snd].
    split; [|split].
    + unfold in_flight, pending, drained. simpl.
      rewrite omap_app, flat_map_app. simpl. rewrite !app_nil_r.
      rewrite <- app_assoc. reflexivity.
    + repeat split.
    + unfold chunks_only. simpl. apply Forall_app. split; [exact Hchunks|].
      repeat constructor. discriminate.
  - cbn [step fst snd].
    destruct (worker_turn_frame tid st Hp Hchunks) as (Hlife & Hfl & Hch & _).
    split; [|split; assumption].
    unfold drained. simpl. rewrite Hfl, app_nil_r. reflexivity.
  - destruct (is_active sid st) eqn:Ha.
    + rewrite step_callback by exact Ha. cbn [fst snd].
      destruct (reported_frame status st) as (Hlife & Hq & Hbuf).
      split; [|split].
      * unfold drained, in_flight, pending. simpl.
        rewrite Hq. rewrite !app_nil_r, app_assoc, take_drop. reflexivity.
      * destruct Hlife as (? & ? & ? & ? & ? & ?). repeat split; assumption.
      * unfold chunks_only. simpl. rewrite Hq. exact Hchunks.
    + cbn [step]. rewrite Ha. cbn [fst snd].
      split; [|split; [apply same_lifecycle_refl | exact Hchunks]].
      unfold drained. simpl. rewrite app_nil_r. reflexivity.
Qed.

Lemma same_lifecycle_live (tid sid : nat) (st st' : state) :
  same_lifecycle st st' -> chunks_only st' ->
  live tid sid st -> live tid sid st'.
Proof.
  intros Hlife Hch (Hp & Ha & Hs & Hmax & _).
  pose proof (same_lifecycle_alive tid st st' Hlife) as Ha'.
  pose proof (same_lifecycle_active sid st st' Hlife) as Hs'.
  destruct Hlife as (Hp' & _ & _ & _ & _ & Hmax').
  unfold live, unbounded in *. rewrite Hp', Ha', Hs', Hmax'.
  repeat split; assumption.
Qed.

Lemma run_conserves (trace : list event) (tid sid : nat) (st : state) :
  forallb pipeline_event trace = true ->
  live tid sid st ->
  drained (snd (run st trace)) ++ in_flight (fst (run st trace))
  = in_flight st ++ flat_map decoded (submitted trace)
  /\ live tid sid (fst (run st trace)).
Proof.
  revert st. induction trace as [|ev trace IH]; intros st Hall Hlive.
  - simpl. rewrite app_nil_r. split; [reflexivity | exact Hlive].
  - simpl in Hall. apply andb_prop in Hall as [Hev Hall].
    pose proof Hlive as (Hp & _ & _ & Hmax & Hch).
    destruct (step_conserves st ev Hev Hp Hmax Hch) as (Hstep & Hlife & Hch').
    pose proof (same_lifecycle_live tid sid st _ Hlife Hch' Hlive) as Hlive'.
    cbn [run]. destruct (step st ev) as [st1 out1] eqn:Hs. cbn [fst snd] in *.
    destruct (IH st1 Hall Hlive') as (Hrest & Hlive'').
    destruct (run st1 trace) as [st2 out2]. cbn [fst snd] in *.
    split; [|exact Hlive''].
    rewrite drained_app, <- app_assoc, Hrest, app_assoc, Hstep.
    rewrite <- app_assoc. f_equal.
    destruct ev as [| |[data|]|?|? ? ?|?]; simpl; rewrite ?app_nil_r;
      reflexivity.
Qed.

(** The worker empties a queue of chunks in as many turns as it has
    items, whatever else the queue holds behind them. *)
Lemma run_worker_turns (tid : nat) (chunks : list (option bytes)) :
  forall (st : state) (tail : list (option bytes)),
    queue (audio_queue st) = chunks ++ tail ->
    Forall (fun item : option bytes => item <> None) chunks ->
    playing st = true -> is_alive tid st = true ->
    exists st',
      run st (replicate (length chunks) (WorkerTurn tid)) = (st', []) /\
      same_lifecycle st st' /\
      queue (audio_queue st') = tail /\
      audio_data_buffer st'
      = audio_data_buffer st ++ flat_map decoded (omap id chunks).
Proof.
  induction chunks as [|item chunks IH]; intros st tail Hq Hch Hp Ha.
  - exists st. simpl. rewrite app_nil_r.
    split; [reflexivity|]. split; [apply same_lifecycle_refl|].
    split; [exact Hq | reflexivity].
  - destruct item as [data|];
      [|apply Forall_inv in Hch; congruence].
    apply Forall_inv_tail in Hch.
    pose proof (worker_turn_chunk tid st data (chunks ++ tail) Ha Hp Hq)
      as Hturn.
    destruct (worker_iteration_chunk st data (chunks ++ tail) Hq)
      as (st1 & Hrun & Hbuf & Hq1 & Hmax & Hp1 & Hths & Hsts & Hth & Hos).
    rewrite Hrun in Hturn. injection Hturn as Hturn.
    assert (Hlife : same_lifecycle st st1) by (repeat split; assumption).
    destruct (IH st1 tail Hq1 Hch ltac:(congruence)
                ltac:(rewrite (is_alive_frame tid st st1 Hths); exact Ha))
      as (st' & Hrun' & Hlife' & Hq' & Hbuf').
    exists st'. cbn [length replicate run step].
    rewrite <- Hturn, Hrun'. split; [reflexivity|].
    split; [eapply same_lifecycle_trans; eassumption|].
    split; [exact Hq'|].
    rewrite Hbuf', Hbuf. simpl. rewrite <- app_assoc. reflexivity.
Qed.

End Pipeline.

(** ** The pipeline, end to end *)

Section Claims.
Context `{SoundFile}.

Lemma started_live (rate : Z) : live 0 0 (exec start (__init__ rate)).
Proof.
  repeat split; try reflexivity.
  - unfold unbounded. simpl. lia.
  - constructor.
Qed.

Lemma in_flight_started (rate : Z) : in_flight (exec start (__init__ rate)) = [].
Proof. reflexivity. Qed.

(** C1. On a started stream, for every interleaving of chunk submissions,
    worker turns and device callbacks: at every moment the samples drained
    so far, followed by those still buffered and those the queued chunks
    will give, are the decoded samples of the submitted chunks in submission
    order (a chunk that fails both decode paths gives none); and the worker
    and the device can always finish the job, after which the drained
    sequence is that concatenation and nothing is left behind. *)
Theorem fifo_pipeline (rate : Z) (trace : list event) :
  forallb pipeline_event trace = true ->
  let st0 := exec start (__init__ rate) in
  drained (snd (run st0 trace)) ++ in_flight (fst (run st0 trace))
  = flat_map decoded (submitted trace)
  /\ exists rest,
       forallb consumer_event rest = true /\
       drained (snd (run st0 (trace ++ rest)))
       = flat_map decoded (submitted trace) /\
       audio_data_buffer (fst (run st0 (trace ++ rest))) = [] /\
       queue (audio_queue (fst (run st0 (trace ++ rest)))) = [].
Proof.
  intros Hall st0.
  destruct (run_conserves trace 0 0 st0 Hall (started_live rate))
    as (Hcons & Hlive).
  change (in_flight st0) with (@nil float) in Hcons. simpl in Hcons.
  split; [exact Hcons|].
  destruct (run st0 trace) as [st1 out1] eqn:Hrun1. cbn [fst snd] in *.
  destruct Hlive as (Hp & Ha & Hs & Hmax & Hch).
  destruct (run_worker_turns 0 (queue (audio_queue st1)) st1 []
              (eq_sym (app_nil_r _)) Hch Hp Ha)
    as (st2 & Hrun2 & Hlife & Hq2 & Hbuf2).
  set (turns := replicate (length (queue (audio_queue st1))) (WorkerTurn 0))
    in *.
  set (outdata := replicate (length (audio_data_buffer st2)) 0%float).
  exists (turns ++ [DeviceCallback 0 outdata []]).
  split.
  - rewrite forallb_app. apply andb_true_intro. split; [|reflexivity].
    subst turns. clear. induction (length (queue (audio_queue st1)));
      [reflexivity | exact IHn].
  - rewrite run_app, Hrun1, run_app, Hrun2.
    cbn [run].
    rewrite step_callback
      by (rewrite (same_lifecycle_active 0 st1 st2 Hlife); exact Hs).
    cbn [fst snd reported].
    subst outdata. rewrite length_replicate.
    rewrite take_ge, drop_ge by lia.
    split; [|split; [reflexivity | exact Hq2]].
    rewrite !drained_app. unfold drained at 2 3. simpl.
    rewrite !app_nil_r, Hbuf2. exact Hcons.
Qed.

Lemma no_thread_alive_dead (t : nat) (st : state) :
  no_thread_alive st -> is_alive t st = false.
Proof.
  unfold no_thread_alive, is_alive. intros Hall.
  destruct (threads st !! t) as [alive|] eqn:Hl; [|reflexivity].
  rewrite Forall_lookup in Hall. exact (Hall t alive Hl).
Qed.

(** With no thread alive and no [start()], the buffer only loses samples
    to the device and the queue only grows. *)
Lemma run_without_worker (trace : list event) :
  forall st : state,
    no_thread_alive st -> unbounded st ->
    forallb not_start trace = true ->
    no_thread_alive (fst (run st trace)) /\
    unbounded (fst (run st trace)) /\
    (exists k, audio_data_buffer (fst (run st trace))
               = drop k (audio_data_buffer st)) /\
    queue (audio_queue (fst (run st trace)))
    = queue (audio_queue st) ++ offered trace.
Proof.
  induction trace as [|ev trace IH]; intros st Hdead Hmax Hall.
  - simpl. rewrite app_nil_r. repeat split; try assumption.
    exists 0. reflexivity.
  - simpl in Hall. apply andb_prop in Hall as [Hev Hall].
    assert (Hstep : no_thread_alive (fst (step st ev)) /\
                    unbounded (fst (step st ev)) /\
                    (exists k, audio_data_buffer (fst (step st ev))
                               = drop k (audio_data_buffer st)) /\
                    queue (audio_queue (fst (step st ev)))
                    = queue (audio_queue st) ++ offered [ev]).
    { destruct ev as [| |audio_data|t|sid outdata status|t];
        try discriminate; cbn [step fst offered].
      - unfold exec. rewrite stop_run. cbn [snd].
        destruct (audio_stream st); simpl; rewrite app_nil_r;
          (repeat split; try assumption; exists 0; reflexivity).
      - unfold exec. rewrite add_audio_chunk_unbounded by exact Hmax.
        repeat split; try assumption. exists 0. reflexivity.
      - rewrite worker_turn_dead by (apply no_thread_alive_dead, Hdead).
        rewrite app_nil_r. repeat split; try assumption.
        exists 0. reflexivity.
      - destruct (is_active sid st) eqn:Ha.
        + pose proof (step_callback st sid outdata status Ha) as Hcb.
          cbn [step] in Hcb. rewrite Ha in Hcb. rewrite Hcb. cbn [fst].
          destruct (reported_frame status st)
            as ((_ & Hths & _ & _ & _ & Hmx) & Hq & _).
          rewrite app_nil_r.
          split; [unfold no_thread_alive; simpl; rewrite Hths; exact Hdead|].
          split; [unfold unbounded; simpl; rewrite Hq; exact Hmax|].
          split; [exists (length outdata); reflexivity|].
          simpl. rewrite Hq. reflexivity.
        + rewrite app_nil_r. repeat split; try assumption.
          exists 0. reflexivity.
      - rewrite worker_late_pass_dead by (apply no_thread_alive_dead, Hdead).
        rewrite app_nil_r. repeat split; try assumption.
        exists 0. reflexivity. }
    cbn [run]. destruct (step st ev) as [st1 out1]. cbn [fst] in Hstep.
    destruct Hstep as (Hdead1 & Hmax1 & [k1 Hbuf1] & Hq1).
    destruct (IH st1 Hdead1 Hmax1 Hall) as (Hdead2 & Hmax2 & [k2 Hbuf2] & Hq2).
    destruct (run st1 trace) as [st2 out2]. cbn [fst] in *.
    split; [exact Hdead2|]. split; [exact Hmax2|]. split.
    + exists (k1 + k2). rewrite Hbuf2, Hbuf1, drop_drop. reflexivity.
    + rewrite Hq2, Hq1, <- app_assoc. f_equal.
      destruct ev; reflexivity.
Qed.

(** C10 (as amended). [None] submitted to a stream in use: once the worker
    has worked through the chunks queued before it and takes the sentinel,
    the worker thread is gone although the flag is still up and the device
    still active.  From then on, as long as [start()] is not called,
    nothing is decoded: the buffer only shrinks, every item offered stays
    queued.  The next [start()], with or without a [stop()] before it,
    finds the thread dead and launches a worker. *)
Theorem sentinel_stops_worker (st : state) (tid sid : nat) :
  live tid sid st ->
  (forall t, t <> tid -> is_alive t st = false) ->
  let st1 := exec (add_audio_chunk None) st in
  exists st2,
    add_audio_chunk None st = (Ok tt, st1) /\
    run st1 (replicate (S (length (queue (audio_queue st)))) (WorkerTurn tid))
    = (st2, []) /\
    Running st2 /\ is_active sid st2 = true /\ no_thread_alive st2 /\
    (forall trace, forallb not_start trace = true ->
       no_thread_alive (fst (run st2 trace)) /\
       (exists k, audio_data_buffer (fst (run st2 trace))
                  = drop k (audio_data_buffer st2)) /\
       queue (audio_queue (fst (run st2 trace))) = offered trace) /\
    (forall trace, forallb not_start trace = true ->
       Running (fst (run st2 (trace ++ [CallStart]))) /\
       worker_alive (fst (run st2 (trace ++ [CallStart])))).
Proof.
  intros (Hp & Ha & Hs & Hmax & Hch) Hothers st1.
  assert (Hst1 : st1 = set_queue (queue (audio_queue st) ++ [None]) st).
  { unfold st1, exec. rewrite add_audio_chunk_unbounded by exact Hmax.
    reflexivity. }
  assert (Hadd : add_audio_chunk None st = (Ok tt, st1)).
  { rewrite Hst1. apply add_audio_chunk_unbounded, Hmax. }
  destruct (run_worker_turns tid (queue (audio_queue st)) st1 [None]
              ltac:(rewrite Hst1; reflexivity) Hch
              ltac:(rewrite Hst1; exact Hp) ltac:(rewrite Hst1; exact Ha))
    as (sta & Hrun & Hlife & Hqa & Hbufa).
  pose proof (same_lifecycle_alive tid st1 sta Hlife) as Haa.
  pose proof (same_lifecycle_active sid st1 sta Hlife) as Hsa.
  pose proof Hlife as (Hpa & Hthsa & _ & _ & _ & Hmaxa).
  assert (Hturn : worker_turn tid sta
                  = set_threads (<[tid := false]> (threads sta))
                      (set_queue [] sta)).
  { apply worker_turn_sentinel.
    - rewrite Haa, Hst1. exact Ha.
    - rewrite Hpa, Hst1. exact Hp.
    - exact Hqa. }
  set (st2 := worker_turn tid sta) in *.
  exists st2.
  assert (Hdead2 : no_thread_alive st2).
  { rewrite Hturn. unfold no_thread_alive. simpl.
    rewrite Hthsa, Hst1. simpl.
    apply Forall_lookup. intros t alive Hl.
    destruct (decide (t = tid)) as [->|Hne].
    - rewrite list_lookup_insert_eq in Hl by (apply is_alive_lt, Ha).
      congruence.
    - rewrite list_lookup_insert_ne in Hl by congruence.
      specialize (Hothers t Hne). unfold is_alive in Hothers.
      rewrite Hl in Hothers. exact Hothers. }
  assert (Hmax2 : unbounded st2).
  { rewrite Hturn. unfold unbounded in *. simpl. rewrite Hmaxa, Hst1. exact Hmax. }
  assert (Hq2 : queue (audio_queue st2) = []) by (rewrite Hturn; reflexivity).
  split; [exact Hadd|].
  split.
  { replace (S (length (queue (audio_queue st))))
      with (length (queue (audio_queue st)) + 1) by lia.
    rewrite replicate_add, run_app, Hrun. reflexivity. }
  split; [rewrite Hturn; unfold Running; simpl; rewrite Hpa, Hst1; exact Hp|].
  split.
  { rewrite Hturn. unfold is_active in *. simpl. rewrite Hst1 in Hsa.
    simpl in Hsa. exact (eq_trans Hsa Hs). }
  split; [exact Hdead2|].
  split.
  - intros trace Hall.
    destruct (run_without_worker trace st2 Hdead2 Hmax2 Hall)
      as (Hd & _ & Hk & Hq).
    rewrite Hq2 in Hq. repeat split; assumption.
  - intros trace Hall. rewrite run_app.
    destruct (run_without_worker trace st2 Hdead2 Hmax2 Hall)
      as (Hd & _ & _ & _).
    destruct (run st2 trace) as [st3 out3]. cbn [fst] in Hd.
    assert (Hd3 : worker_dead st3).
    { unfold worker_dead. destruct (audio_thread st3) as [t|]; [|exact I].
      apply no_thread_alive_dead, Hd. }
    assert (Hrestart : run st3 [CallStart] = (snd (start st3), []))
      by reflexivity.
    rewrite Hrestart, (start_when_not_alive st3 Hd3). cbn [fst snd].
    split; [reflexivity|].
    exists (length (threads st3)). split; [reflexivity|].
    unfold is_alive. simpl.
    rewrite list_lookup_middle by reflexivity. reflexivity.
Qed.

Lemma worker_alive_frame (st st' : state) :
  audio_thread st' = audio_thread st -> threads st' = threads st ->
  worker_alive st -> worker_alive st'.
Proof.
  intros Hth Hths (tid & Htid & Ha). exists tid.
  split; [congruence|]. rewrite (is_alive_frame tid st st' Hths). exact Ha.
Qed.

(** As long as only chunks are submitted, a raised flag comes with a live
    worker. *)
Lemma step_keeps_worker (st : state) (ev : event) :
  chunk_event ev = true ->
  (playing st = true -> worker_alive st) -> chunks_only st -> unbounded st ->
  (playing (fst (step st ev)) = true -> worker_alive (fst (step st ev))) /\
  chunks_only (fst (step st ev)) /\
  unbounded (fst (step st ev)).
Proof.
  intros Hev Hinv Hch Hmax.
  destruct ev as [| |[data|]|t|sid outdata status|t]; try discriminate;
    cbn [step fst].
  - assert (Hcases : worker_alive st \/ worker_dead st).
    { unfold worker_alive, worker_dead.
      destruct (audio_thread st) as [tid|]; [|right; exact I].
      destruct (is_alive tid st) eqn:Ha.
      - left. exists tid. split; [reflexivity | exact Ha].
      - right. reflexivity. }
    unfold exec. destruct Hcases as [Halive|Hdead].
    + rewrite (start_when_alive st Halive). cbn [snd].
      repeat split; assumption.
    + rewrite (start_when_not_alive st Hdead). cbn [snd].
      split; [|split; assumption].
      intros _. exists (length (threads st)). split; [reflexivity|].
      unfold is_alive. simpl.
      rewrite list_lookup_middle by reflexivity. reflexivity.
  - unfold exec. rewrite stop_run. cbn [snd].
    destruct (audio_stream st); (split; [discriminate | split; assumption]).
  - unfold exec. rewrite add_audio_chunk_unbounded by exact Hmax. cbn [snd].
    split; [exact Hinv|]. split; [|exact Hmax].
    unfold chunks_only. simpl. apply Forall_app. split; [exact Hch|].
    repeat constructor. discriminate.
  - destruct (playing st) eqn:Hp.
    + destruct (worker_turn_frame t st Hp Hch)
        as ((Hp' & Hths & _ & Hth & _ & Hmx) & _ & Hch' & _).
      split; [|split; [exact Hch'|]].
      * intros _. apply (worker_alive_frame st); auto.
      * unfold unbounded in *. rewrite Hmx. exact Hmax.
    + destruct (is_alive t st) eqn:Ha.
      * rewrite worker_turn_stopped by assumption.
        split; [simpl; congruence | split; assumption].
      * rewrite worker_turn_dead by exact Ha.
        split; [congruence | split; assumption].
  - destruct (is_active sid st) eqn:Ha.
    + pose proof (step_callback st sid outdata status Ha) as Hcb.
      cbn [step] in Hcb. rewrite Ha in Hcb. rewrite Hcb. cbn [fst].
      destruct (reported_frame status st)
        as ((Hp' & Hths & _ & Hth & _ & Hmx) & Hq & _).
      split; [|split].
      * simpl. rewrite Hp'. intros Hp. apply (worker_alive_frame st); auto.
      * unfold chunks_only. simpl. rewrite Hq. exact Hch.
      * unfold unbounded. simpl. rewrite Hq. exact Hmax.
    + repeat split; assumption.
  - destruct (worker_late_pass_frame t st)
      as (Hp' & Hmx & _ & Hth & _ & [k Hk]).
    destruct (playing st) eqn:Hp.
    + rewrite worker_late_pass_running by exact Hp.
      destruct (worker_turn_frame t st Hp Hch)
        as ((_ & Hths & _ & Hth' & _ & Hmx') & _ & Hch' & _).
      split; [|split; [exact Hch'|]].
      * intros _. apply (worker_alive_frame st); auto.
      * unfold unbounded in *. rewrite Hmx'. exact Hmax.
    + split; [rewrite Hp'; discriminate|]. split.
      * unfold chunks_only. rewrite Hk. apply Forall_drop, Hch.
      * unfold unbounded in *. rewrite Hmx. exact Hmax.
Qed.

Lemma run_keeps_worker (trace : list event) (st : state) :
  forallb chunk_event trace = true ->
  (playing st = true -> worker_alive st) -> chunks_only st -> unbounded st ->
  playing (fst (run st trace)) = true -> worker_alive (fst (run st trace)).
Proof.
  revert st. induction trace as [|ev trace IH]; intros st Hall Hinv Hch Hmax.
  - exact Hinv.
  - simpl in Hall. apply andb_prop in Hall as [Hev Hall].
    destruct (step_keeps_worker st ev Hev Hinv Hch Hmax)
      as (Hinv' & Hch' & Hmax').
    cbn [run]. destruct (step st ev) as [st1 out1]. cbn [fst] in *.
    specialize (IH st1 Hall Hinv' Hch' Hmax').
    destruct (run st1 trace) as [st2 out2]. exact IH.
Qed.

(** C7 (as amended). [start()] is a no-op whenever the worker thread is
    alive: no thread and no output stream is created.  That is the case in
    every running state of a streamer that has been given chunks only, and
    right after any [start()].  [stop()] never raises; on a stopped stream
    it is a no-op, and so is the second of two [stop()] calls in a row. *)
Theorem start_stop_idempotent :
  (forall st, worker_alive st -> start st = (Ok tt, st))
  /\ (forall rate trace,
       forallb chunk_event trace = true ->
       Running (fst (run (__init__ rate) trace)) ->
       start (fst (run (__init__ rate) trace))
       = (Ok tt, fst (run (__init__ rate) trace)))
  /\ (forall st, fst (start st) = Ok tt /\
                 start (exec start st) = (Ok tt, exec start st))
  /\ (forall st, Stopped st -> stop st = (Ok tt, st))
  /\ (forall st, fst (stop st) = Ok tt /\
                 stop (exec stop st) = (Ok tt, exec stop st)).
Proof.
  split; [exact start_when_alive|].
  split; [|split; [|split]].
  - intros rate trace Hall Hrun. apply start_when_alive.
    apply (run_keeps_worker trace (__init__ rate) Hall); try assumption.
    + discriminate.
    + constructor.
    + unfold unbounded. simpl. lia.
  - intros st.
    assert (Hcases : worker_alive st \/ worker_dead st).
    { unfold worker_alive, worker_dead. destruct (audio_thread st) as [tid|]; [|right; exact I].
      destruct (is_alive tid st) eqn:Ha.
      - left. exists tid. split; [reflexivity | exact Ha].
      - right. reflexivity. }
    destruct Hcases as [Halive|Hdead].
    + unfold exec. rewrite (start_when_alive st Halive). simpl.
      split; [reflexivity | apply start_when_alive, Halive].
    + unfold exec. rewrite (start_when_not_alive st Hdead).
      split; [reflexivity|]. apply start_when_alive.
      exists (length (threads st)). split; [reflexivity|].
      unfold is_alive. simpl.
      rewrite list_lookup_middle by reflexivity. reflexivity.
  - intros st [Hp Hs]. rewrite stop_run. f_equal.
    destruct st as [[mx q] th pl sr os buf ths sts tmp out].
    simpl in *. subst pl. destruct os as [sid|]; [|reflexivity].
    unfold set_streams, set_playing. simpl.
    rewrite list_insert_id by exact Hs. reflexivity.
  - intros st. unfold exec. rewrite stop_run. split; [reflexivity|].
    cbn [snd]. rewrite stop_run. f_equal.
    destruct st as [[mx q] th pl sr os buf ths sts tmp out].
    destruct os as [sid|]; simpl; [|reflexivity].
    unfold set_streams, set_playing. simpl.
    rewrite list_insert_insert_eq. reflexivity.
Qed.

End Claims.

Lemma start_stop_idempotent_witness :
  let st := fst (@run headerless (__init__ 48000)
                   [CallStart; CallAdd (Some [Byte.x00; Byte.x40]);
                    WorkerTurn 0]) in
  start st = (Ok tt, st) /\
  stop (exec stop st) = (Ok tt, exec stop st).
Proof.
  intros st.
  destruct (@start_stop_idempotent headerless)
    as (_ & Hrunning & _ & Hstopped & _).
  split.
  - apply (Hrunning 48000%Z
             [CallStart; CallAdd (Some [Byte.x00; Byte.x40]); WorkerTurn 0]);
      reflexivity.
  - apply Hstopped. split; reflexivity.
Defined.

(** A running stream on which [start()] is not a no-op: the worker has
    taken the sentinel, the flag is up and the device active, and [start()]
    builds a second thread and a second output stream next to the first. *)
Lemma start_while_running_not_noop :
  let st := @worker_turn headerless 0
              (exec (add_audio_chunk None) (exec start (__init__ 48000))) in
  Running st /\ is_active 0 st = true /\
  fst (start st) = Ok tt /\
  exec start st <> st /\
  length (threads (exec start st)) = 2 /\
  streams (exec start st) = [Active; Active].
Proof.
  vm_compute. repeat split. discriminate.
Qed.


(** ** The theorems at work on concrete runs *)

Example sample_trace_drained :
  let '(st, delivered) :=
    @run toy_container (exec start (__init__ 48000)) sample_trace in
  map fst delivered = [[0.5%float]; [0.25%float; 0.5%float]] /\
  map snd delivered
  = [[0.5%float]; [0.25%float; 0.5%float; 0%float]] /\
  audio_data_buffer st = [] /\
  queue (audio_queue st) = [Some [Byte.x57; Byte.xc0]] /\
  size (tmpdir st) = 2.
Proof. vm_compute. repeat split. Qed.

Lemma fifo_pipeline_witness :
  let st0 := exec start (__init__ 48000) in
  drained (snd (@run toy_container st0 sample_trace))
  ++ @in_flight toy_container (fst (@run toy_container st0 sample_trace))
  = flat_map (@decoded toy_container) (submitted sample_trace).
Proof.
  exact (proj1 (@fifo_pipeline toy_container 48000 sample_trace eq_refl)).
Defined.

Lemma sentinel_stops_worker_witness :
  let st := exec start (__init__ 48000) in
  exists st2,
    @run headerless (exec (add_audio_chunk None) st) [WorkerTurn 0]
    = (st2, []) /\
    Running st2 /\ is_active 0 st2 = true /\ no_thread_alive st2 /\
    audio_data_buffer
      (fst (@run headerless st2
              [CallAdd (Some [Byte.x00; Byte.x40]); WorkerTurn 0;
               WorkerTurn 1]))
    = [].
Proof.
  intros st.
  assert (Hlive : live 0 0 st).
  { repeat split; try reflexivity.
    - unfold unbounded. simpl. lia.
    - constructor. }
  assert (Hothers : forall t, t <> 0 -> is_alive t st = false)
    by (intros [|t] Ht; [congruence | reflexivity]).
  destruct (@sentinel_stops_worker headerless st 0 0 Hlive Hothers)
    as (st2 & _ & Hrun & Hp & Hs & Hdead & Hquiet & _).
  exists st2. split; [exact Hrun|]. split; [exact Hp|].
  split; [exact Hs|]. split; [exact Hdead|].
  destruct (Hquiet [CallAdd (Some [Byte.x00; Byte.x40]); WorkerTurn 0;
                    WorkerTurn 1] eq_refl) as (_ & [k Hk] & _).
  rewrite Hk.
  assert (audio_data_buffer st2 = []) as ->.
  { assert (Hst2 : st2 = fst (@run headerless
                                (exec (add_audio_chunk None) st)
                                [WorkerTurn 0]))
      by exact (eq_sym (f_equal fst Hrun)).
    rewrite Hst2. reflexivity. }
  apply drop_nil.
Defined.

(** No [stop()] is needed to bring the worker back: after the worker has
    taken the sentinel, a chunk submitted next is decoded and appended once
    [start()] is called, in a run without any [stop()]. *)
Lemma chunk_decoded_after_bare_start :
  let st := fst (@run headerless (__init__ 48000)
                   [CallStart; CallAdd None; WorkerTurn 0]) in
  let st' := fst (@run headerless st
                    [CallAdd (Some [Byte.x00; Byte.x40]); CallStart;
                     WorkerTurn 1]) in
  Running st /\ threads st = [false] /\ audio_data_buffer st = [] /\
  audio_data_buffer st' = [0.5%float] /\ threads st' = [false; true] /\
  queue (audio_queue st') = [].
Proof. vm_compute. repeat split. Qed.

(** [stop()] closes only the stream it still refers to. *)
Example stop_leaves_first_stream :
  streams (fst (@run headerless (__init__ 48000)
                  [CallStart; CallAdd None; WorkerTurn 0; CallStart;
                   CallStop]))
  = [Active; Closed].
Proof. vm_compute. reflexivity. Qed.

(** * Further properties *)

(** ** The worker loop as a whole *)

Section WorkerLoop.
Context `{SoundFile}.

Lemma worker_iteration_returns (st : state) :
  exists c st', worker_iteration st = (Ok c, st').
Proof.
  destruct (queue (audio_queue st)) as [|[data|] rest] eqn:Hq.
  - rewrite (worker_iteration_empty st Hq). eauto.
  - destruct (worker_iteration_chunk st data rest Hq) as (st' & Hrun & _).
    rewrite Hrun. eauto.
  - rewrite (worker_iteration_sentinel st rest Hq). eauto.
Qed.

(** X1. The worker never raises: for every number of passes, every state
    and whatever the decoder makes of a chunk, [_audio_processing_worker]
    either returns or is back at its loop test. *)
Theorem worker_never_raises (fuel : nat) (st : state) :
  exists returned st',
    _audio_processing_worker fuel st = (Ok returned, st').
Proof.
  revert st. induction fuel as [|fuel IH]; intros st.
  - exists false, st. reflexivity.
  - cbn [_audio_processing_worker]. unfold bind at 1. unfold gets at 1.
    destruct (playing st); [|exists true, st; reflexivity].
    destruct (worker_iteration_returns st) as (c & st1 & Hrun).
    unfold bind. rewrite Hrun. destruct c.
    + apply IH.
    + exists true, st1. reflexivity.
Qed.

Lemma worker_loop_pass (fuel : nat) (st st1 : state) :
  playing st = true ->
  worker_iteration st = (Ok Next, st1) ->
  _audio_processing_worker (S fuel) st = _audio_processing_worker fuel st1.
Proof.
  intros Hp Hrun. cbn [_audio_processing_worker].
  unfold bind at 1. unfold gets at 1. rewrite Hp.
  unfold bind. rewrite Hrun. reflexivity.
Qed.

Lemma worker_loop_idle (fuel : nat) (st : state) :
  playing st = true -> queue (audio_queue st) = [] ->
  _audio_processing_worker fuel st = (Ok false, st).
Proof.
  intros Hp Hq. induction fuel as [|fuel IH]; [reflexivity|].
  rewrite (worker_loop_pass fuel st st Hp (worker_iteration_empty st Hq)).
  exact IH.
Qed.

(** X2. With the flag up, the loop works through a queue of chunks in one
    pass per chunk, appending their samples in queue order, and then polls
    the empty queue without changing anything: any further passes leave the
    state as it is, and the function does not return. *)
Theorem worker_loop_drains_then_idles (chunks : list bytes) (extra : nat) :
  forall st : state,
    playing st = true ->
    queue (audio_queue st) = map Some chunks ->
    exists st',
      _audio_processing_worker (length chunks + extra) st = (Ok false, st') /\
      queue (audio_queue st') = [] /\
      audio_data_buffer st'
      = audio_data_buffer st ++ flat_map decoded chunks /\
      same_lifecycle st st'.
Proof.
  induction chunks as [|data chunks IH]; intros st Hp Hq.
  - exists st. rewrite (worker_loop_idle _ st Hp Hq).
    split; [reflexivity|]. split; [exact Hq|].
    split; [simpl; rewrite app_nil_r; reflexivity | apply same_lifecycle_refl].
  - destruct (worker_iteration_chunk st data (map Some chunks) Hq)
      as (st1 & Hrun & Hbuf & Hq1 & Hmax & Hp1 & Hths & Hsts & Hth & Hos).
    destruct (IH st1 ltac:(congruence) Hq1)
      as (st' & Hloop & Hq' & Hbuf' & Hlife').
    exists st'. cbn [length Nat.add].
    rewrite (worker_loop_pass _ st st1 Hp Hrun).
    split; [exact Hloop|]. split; [exact Hq'|]. split.
    + rewrite Hbuf', Hbuf. simpl. rewrite <- app_assoc. reflexivity.
    + apply (same_lifecycle_trans st st1 st'); [|exact Hlife'].
      repeat split; assumption.
Qed.

(** X3. With the flag up, the loop that meets the [None] sentinel behind
    some chunks returns right after taking it: the chunks before it are
    decoded in order, the items behind it stay in the queue untouched, the
    flag is still up, and passes that were left to do are not done. *)
Theorem worker_loop_returns_at_sentinel (chunks : list bytes)
    (rest : list (option bytes)) (extra : nat) :
  forall st : state,
    playing st = true ->
    queue (audio_queue st) = map Some chunks ++ None :: rest ->
    exists st',
      _audio_processing_worker (length chunks + S extra) st = (Ok true, st') /\
      queue (audio_queue st') = rest /\
      audio_data_buffer st'
      = audio_data_buffer st ++ flat_map decoded chunks /\
      playing st' = true.
Proof.
  induction chunks as [|data chunks IH]; intros st Hp Hq.
  - exists (set_queue rest st). cbn [length Nat.add _audio_processing_worker].
    unfold bind at 1. unfold gets at 1. rewrite Hp.
    unfold bind. rewrite (worker_iteration_sentinel st rest Hq).
    split; [reflexivity|]. split; [reflexivity|].
    split; [simpl; rewrite app_nil_r; reflexivity | exact Hp].
  - destruct (worker_iteration_chunk st data (map Some chunks ++ None :: rest)
                Hq)
      as (st1 & Hrun & Hbuf & Hq1 & _ & Hp1 & _).
    destruct (IH st1 ltac:(congruence) Hq1)
      as (st' & Hloop & Hq' & Hbuf' & Hp').
    exists st'. cbn [length Nat.add].
    rewrite (worker_loop_pass _ st st1 Hp Hrun).
    split; [exact Hloop|]. split; [exact Hq'|]. split; [|exact Hp'].
    rewrite Hbuf', Hbuf. simpl. rewrite <- app_assoc. reflexivity.
Qed.

(** X4. A chunk the container reader accepts is taken as decoded, whatever
    its length and whatever sample rate it declares: the pass appends
    exactly the decoded array, prints its length with the declared rate,
    removes the scratch file it wrote, and leaves the stream's own sample
    rate alone; the declared rate reaches nothing but the console. *)
Theorem container_decode_pass (st : state) (data : bytes)
    (rest : list (option bytes)) (audio_array : list float) (rate : Z) :
  queue (audio_queue st) = Some data :: rest ->
  sf_decode data = Ok (audio_array, rate) ->
  fst (worker_iteration st) = Ok Next /\
  audio_data_buffer (exec worker_iteration st)
  = audio_data_buffer st ++ audio_array /\
  stdout (exec worker_iteration st)
  = stdout st ++ [AddedChunk (length audio_array) rate] /\
  tmpdir (exec worker_iteration st) = tmpdir st /\
  queue (audio_queue (exec worker_iteration st)) = rest /\
  sample_rate (exec worker_iteration st) = sample_rate st.
Proof.
  intros Hq Hdec. unfold exec.
  rewrite (worker_iteration_decoded st data rest audio_array rate Hq Hdec).
  repeat split.
Qed.

Lemma worker_iteration_tmpdir (st : state) :
  tmpdir (exec worker_iteration st) = tmpdir st \/
  exists data,
    is_raise (sf_decode data) = true /\
    tmpdir (exec worker_iteration st)
    = <[fresh (dom (tmpdir st)) := data]> (tmpdir st).
Proof.
  unfold exec.
  destruct (queue (audio_queue st)) as [|[data|] rest] eqn:Hq.
  - rewrite (worker_iteration_empty st Hq). left. reflexivity.
  - destruct (sf_decode data) as [[audio_array rate]|e] eqn:Hdec.
    + rewrite (worker_iteration_decoded st data rest audio_array rate Hq Hdec).
      left. reflexivity.
    + right. exists data. rewrite Hdec. split; [reflexivity|].
      destruct (raw_pcm data) as [audio_array|e'] eqn:Hpcm.
      * rewrite (worker_iteration_fallback st data rest e audio_array
                   Hq Hdec Hpcm). reflexivity.
      * rewrite (worker_iteration_dropped st data rest e e' Hq Hdec Hpcm).
        reflexivity.
  - rewrite (worker_iteration_sentinel st rest Hq). left. reflexivity.
Qed.

(** X5. A pass never removes or rewrites a file that was in the temporary
    directory before it: the scratch file gets a name not in use, and the
    only file the pass unlinks is that one. *)
Theorem worker_preserves_files (st : state) (name : nat) (contents : bytes) :
  tmpdir st !! name = Some contents ->
  tmpdir (exec worker_iteration st) !! name = Some contents.
Proof.
  intros Hfile.
  destruct (worker_iteration_tmpdir st) as [->|(data & _ & ->)];
    [exact Hfile|].
  rewrite lookup_insert_ne; [exact Hfile|].
  intros Heq. pose proof (tmpdir_fresh (tmpdir st)) as Hfresh.
  rewrite Heq in Hfresh. congruence.
Qed.

Lemma failed_decodes_cons (data : bytes) (chunks : list bytes) :
  failed_decodes (data :: chunks)
  = (if is_raise (sf_decode data) then 1 else 0) + failed_decodes chunks.
Proof.
  unfold failed_decodes. rewrite filter_cons.
  destruct (decide (is_raise (sf_decode data) = true)) as [Ht|Hf].
  - rewrite Ht. reflexivity.
  - destruct (is_raise (sf_decode data)); [congruence | reflexivity].
Qed.

(** X6. Scratch files pile up: when the loop has worked through a queue of
    chunks, the temporary directory holds one more file for every chunk the
    container decode rejected, whether the raw-PCM reading then succeeded
    or not, and no more. *)
Theorem scratch_files_accumulate (chunks : list bytes) :
  forall st : state,
    playing st = true ->
    queue (audio_queue st) = map Some chunks ->
    size (tmpdir (exec (_audio_processing_worker (length chunks)) st))
    = size (tmpdir st) + failed_decodes chunks.
Proof.
  induction chunks as [|data chunks IH]; intros st Hp Hq.
  - unfold exec. simpl. unfold failed_decodes. simpl. lia.
  - destruct (worker_iteration_chunk st data (map Some chunks) Hq)
      as (st1 & Hrun & _ & Hq1 & _ & Hp1 & _).
    unfold exec in *. cbn [length].
    rewrite (worker_loop_pass _ st st1 Hp Hrun).
    rewrite (IH st1 ltac:(congruence) Hq1), failed_decodes_cons.
    assert (Hsize : size (tmpdir st1)
                    = size (tmpdir st)
                      + (if is_raise (sf_decode data) then 1 else 0)).
    { destruct (sf_decode data) as [[audio_array rate]|e] eqn:Hdec.
      - rewrite (worker_iteration_decoded st data _ audio_array rate Hq Hdec)
          in Hrun.
        injection Hrun as <-. simpl. lia.
      - assert (tmpdir st1
                = <[fresh (dom (tmpdir st)) := data]> (tmpdir st)) as ->.
        { destruct (raw_pcm data) as [audio_array|e'] eqn:Hpcm.
          - rewrite (worker_iteration_fallback st data _ e audio_array
                       Hq Hdec Hpcm) in Hrun.
            injection Hrun as <-. reflexivity.
          - rewrite (worker_iteration_dropped st data _ e e' Hq Hdec Hpcm)
              in Hrun.
            injection Hrun as <-. reflexivity. }
        rewrite map_size_insert_None by apply tmpdir_fresh. simpl. lia. }
    rewrite Hsize. lia.
Qed.

End WorkerLoop.

Lemma worker_loop_drains_then_idles_witness :
  exists st',
    @_audio_processing_worker toy_container 5
      (exec (add_audio_chunk (Some [Byte.x00; Byte.x40]))
         (exec (add_audio_chunk (Some [Byte.x57; Byte.x80]))
            (exec start (__init__ 48000))))
    = (Ok false, st') /\
    queue (audio_queue st') = [] /\
    audio_data_buffer st' = [0.5%float; 0.5%float].
Proof.
  destruct (@worker_loop_drains_then_idles toy_container
              [[Byte.x57; Byte.x80]; [Byte.x00; Byte.x40]] 3
              (exec (add_audio_chunk (Some [Byte.x00; Byte.x40]))
                 (exec (add_audio_chunk (Some [Byte.x57; Byte.x80]))
                    (exec start (__init__ 48000))))
              eq_refl eq_refl)
    as (st' & Hloop & Hq & Hbuf & _).
  exists st'. split; [exact Hloop|]. split; [exact Hq | exact Hbuf].
Defined.

Lemma worker_loop_returns_at_sentinel_witness :
  exists st',
    @_audio_processing_worker headerless 4
      (exec (add_audio_chunk (Some [Byte.x00; Byte.xc0]))
         (exec (add_audio_chunk None)
            (exec (add_audio_chunk (Some [Byte.x00; Byte.x40]))
               (exec start (__init__ 48000)))))
    = (Ok true, st') /\
    queue (audio_queue st') = [Some [Byte.x00; Byte.xc0]] /\
    audio_data_buffer st' = [0.5%float].
Proof.
  destruct (@worker_loop_returns_at_sentinel headerless
              [[Byte.x00; Byte.x40]] [Some [Byte.x00; Byte.xc0]] 2
              (exec (add_audio_chunk (Some [Byte.x00; Byte.xc0]))
                 (exec (add_audio_chunk None)
                    (exec (add_audio_chunk (Some [Byte.x00; Byte.x40]))
                       (exec start (__init__ 48000)))))
              eq_refl eq_refl)
    as (st' & Hloop & Hq & Hbuf & _).
  exists st'. split; [exact Hloop|]. split; [exact Hq | exact Hbuf].
Defined.

Lemma container_decode_pass_witness :
  let st := exec (add_audio_chunk (Some [Byte.x57; Byte.x80; Byte.x40]))
              (exec start (__init__ 48000)) in
  audio_data_buffer (exec (@worker_iteration toy_container) st)
  = [0.5%float; 0.25%float] /\
  stdout (exec (@worker_iteration toy_container) st)
  = stdout st ++ [AddedChunk 2 8000] /\
  tmpdir (exec (@worker_iteration toy_container) st) = tmpdir st /\
  sample_rate (exec (@worker_iteration toy_container) st) = 48000%Z.
Proof.
  intros st.
  destruct (@container_decode_pass toy_container st
              [Byte.x57; Byte.x80; Byte.x40] []
              [0.5%float; 0.25%float] 8000%Z eq_refl eq_refl)
    as (_ & Hbuf & Hout & Htmp & _ & Hrate).
  split; [exact Hbuf|]. split; [exact Hout|]. split; [exact Htmp|].
  exact Hrate.
Defined.

Lemma worker_preserves_files_witness :
  let st := set_tmpdir {[0 := [Byte.x2a]]}
              (exec (add_audio_chunk (Some [Byte.x00; Byte.x40]))
                 (exec start (__init__ 48000))) in
  tmpdir (exec (@worker_iteration headerless) st) !! 0 = Some [Byte.x2a].
Proof.
  intros st.
  exact (@worker_preserves_files headerless st 0 [Byte.x2a] eq_refl).
Defined.

Lemma scratch_files_accumulate_witness :
  size (tmpdir
          (exec (@_audio_processing_worker toy_container 3)
             (exec (add_audio_chunk (Some [Byte.x01]))
                (exec (add_audio_chunk (Some [Byte.x57; Byte.x80]))
                   (exec (add_audio_chunk (Some [Byte.x00; Byte.x40]))
                      (exec start (__init__ 48000)))))))
  = 2.
Proof.
  exact (@scratch_files_accumulate toy_container
           [[Byte.x00; Byte.x40]; [Byte.x57; Byte.x80]; [Byte.x01]]
           (exec (add_audio_chunk (Some [Byte.x01]))
              (exec (add_audio_chunk (Some [Byte.x57; Byte.x80]))
                 (exec (add_audio_chunk (Some [Byte.x00; Byte.x40]))
                    (exec start (__init__ 48000)))))
           eq_refl eq_refl).
Defined.

(** ** The raw-PCM reading, further *)

Lemma int16_checked (check : Z -> bool) :
  forallb (fun a => forallb (fun b =>
             check (256 * Z.of_nat a + Z.of_nat b - 32768)%Z) (seq 0 256))
    (seq 0 256) = true ->
  forall v, (-32768 <= v < 32768)%Z -> check v = true.
Proof.
  intros Hall v Hv.
  pose proof (Z.div_mod (v + 32768) 256 ltac:(lia)) as Hdm.
  pose proof (Z.mod_pos_bound (v + 32768) 256 ltac:(lia)) as Hm.
  assert (0 <= (v + 32768) / 256 < 256)%Z as Hd
    by (split; [apply Z.div_pos; lia | apply Z.div_lt_upper_bound; lia]).
  pose proof (forallb_below _ _ Hall (Z.to_nat ((v + 32768) / 256))
                ltac:(lia)) as Hrow.
  pose proof (forallb_below _ _ Hrow (Z.to_nat ((v + 32768) mod 256))
                ltac:(lia)) as Hc.
  cbv beta in Hc. rewrite !Z2Nat.id in Hc by lia.
  replace (256 * ((v + 32768) / 256) + (v + 32768) mod 256 - 32768)%Z
    with v in Hc by lia.
  exact Hc.
Qed.

Lemma raw_pcm_items (bs : bytes) (samples : list float) :
  raw_pcm bs = Ok samples ->
  length bs mod 2 = 0 /\
  samples = map Numpy.int16_to_sample (Numpy.int16_items bs).
Proof.
  unfold raw_pcm, Numpy.frombuffer_int16.
  destruct (Nat.eqb_spec (length bs mod 2) 0) as [Heven|]; [|discriminate].
  intros [= <-]. split; [exact Heven | reflexivity].
Qed.

(** X7. Every sample of the raw-PCM reading lies between -1.0, included,
    and 1.0, excluded: the reading never produces a sample outside the
    range the output format is normalized to. *)
Theorem raw_pcm_range (bs : bytes) (samples : list float) :
  raw_pcm bs = Ok samples ->
  Forall (fun x => normalized x = true) samples.
Proof.
  intros Hpcm. destruct (raw_pcm_items bs samples Hpcm) as (_ & ->).
  apply Forall_map.
  eapply Forall_impl; [apply Forall_int16_items_range|].
  intros v Hv.
  apply (int16_checked (fun v => normalized (Numpy.int16_to_sample v)));
    [vm_compute; reflexivity | exact Hv].
Qed.

Lemma raw_pcm_range_witness :
  Forall (fun x => normalized x = true)
    [(-1)%float; 0.999969482421875%float].
Proof.
  exact (raw_pcm_range [Byte.x00; Byte.x80; Byte.xff; Byte.x7f]
           [(-1)%float; 0.999969482421875%float] eq_refl).
Defined.

Lemma even_length_halves (bs : bytes) :
  length bs mod 2 = 0 -> exists k, length bs = 2 * k.
Proof.
  intros Hmod. exists (length bs / 2).
  pose proof (Nat.div_mod_eq (length bs) 2). lia.
Qed.

Lemma int16_items_app (k : nat) :
  forall a b : bytes,
    length a = 2 * k ->
    Numpy.int16_items (a ++ b) = Numpy.int16_items a ++ Numpy.int16_items b.
Proof.
  induction k as [|k IH]; intros a b Hlen.
  - destruct a; [reflexivity | discriminate].
  - destruct a as [|lo [|hi a]]; simpl in Hlen; try lia.
    simpl. f_equal. apply IH. lia.
Qed.

(** X8. Chunk boundaries on whole items do not matter: when two byte
    sequences each read as raw PCM, their concatenation reads as the
    concatenation of their samples. *)
Theorem raw_pcm_app (a b : bytes) (sa sb : list float) :
  raw_pcm a = Ok sa -> raw_pcm b = Ok sb ->
  raw_pcm (a ++ b) = Ok (sa ++ sb).
Proof.
  intros Ha Hb.
  destruct (raw_pcm_items a sa Ha) as (Hma & ->).
  destruct (raw_pcm_items b sb Hb) as (Hmb & ->).
  destruct (even_length_halves a Hma) as [ka Hka].
  destruct (even_length_halves b Hmb) as [kb Hkb].
  unfold raw_pcm, Numpy.frombuffer_int16.
  assert (length (a ++ b) mod 2 = 0) as ->.
  { rewrite length_app, Hka, Hkb.
    replace (2 * ka + 2 * kb) with ((ka + kb) * 2) by lia.
    apply Nat.Div0.mod_mul. }
  simpl. rewrite (int16_items_app ka a b Hka), map_app. reflexivity.
Qed.

Lemma raw_pcm_app_witness :
  raw_pcm ([Byte.x00; Byte.x40] ++ [Byte.x00; Byte.x80; Byte.x00; Byte.x20])
  = Ok ([0.5%float] ++ [(-1)%float; 0.25%float]).
Proof.
  exact (raw_pcm_app [Byte.x00; Byte.x40]
           [Byte.x00; Byte.x80; Byte.x00; Byte.x20]
           [0.5%float] [(-1)%float; 0.25%float] eq_refl eq_refl).
Defined.

Lemma byte_value_inj (x y : Byte.byte) :
  Numpy.byte_value x = Numpy.byte_value y -> x = y.
Proof.
  unfold Numpy.byte_value. intros Heq.
  apply N2Z.inj in Heq.
  pose proof (Byte.of_to_N x) as Hx. pose proof (Byte.of_to_N y) as Hy.
  rewrite Heq in Hx. congruence.
Qed.

Lemma int16_le_inj (lo hi lo' hi' : Byte.byte) :
  Numpy.int16_le lo hi = Numpy.int16_le lo' hi' -> lo = lo' /\ hi = hi'.
Proof.
  rewrite !int16_le_value. cbv zeta.
  pose proof (byte_value_range lo). pose proof (byte_value_range hi).
  pose proof (byte_value_range lo'). pose proof (byte_value_range hi').
  intros Heq.
  assert (Numpy.byte_value lo = Numpy.byte_value lo' /\
          Numpy.byte_value hi = Numpy.byte_value hi') as [Hlo Hhi].
  { destruct (Z.ltb_spec (Numpy.byte_value lo + 256 * Numpy.byte_value hi)
                32768);
      destruct (Z.ltb_spec (Numpy.byte_value lo' + 256 * Numpy.byte_value hi')
                  32768); lia. }
  split; apply byte_value_inj; assumption.
Qed.

Lemma int16_to_sample_inj (v w : Z) :
  (-32768 <= v < 32768)%Z -> (-32768 <= w < 32768)%Z ->
  Numpy.int16_to_sample v = Numpy.int16_to_sample w -> v = w.
Proof.
  intros Hv Hw Heq.
  assert (Hinv : forall u, (-32768 <= u < 32768)%Z ->
                   sample_to_int16 (Numpy.int16_to_sample u) = u).
  { intros u Hu. apply Z.eqb_eq.
    apply (int16_checked
             (fun u => Z.eqb (sample_to_int16 (Numpy.int16_to_sample u)) u));
      [vm_compute; reflexivity | exact Hu]. }
  rewrite <- (Hinv v Hv), <- (Hinv w Hw), Heq. reflexivity.
Qed.

Lemma int16_items_inj (k : nat) :
  forall a b : bytes,
    length a = 2 * k -> length b = 2 * k ->
    map Numpy.int16_to_sample (Numpy.int16_items a)
    = map Numpy.int16_to_sample (Numpy.int16_items b) ->
    a = b.
Proof.
  induction k as [|k IH]; intros a b Ha Hb Heq.
  - destruct a, b; try discriminate. reflexivity.
  - destruct a as [|lo [|hi a]]; simpl in Ha; try lia.
    destruct b as [|lo' [|hi' b]]; simpl in Hb; try lia.
    simpl in Heq. injection Heq as Hhead Htail.
    apply int16_to_sample_inj in Hhead; try apply int16_le_range.
    apply int16_le_inj in Hhead as [-> ->].
    f_equal. f_equal. apply IH; [lia | lia | exact Htail].
Qed.

(** X9. The raw-PCM reading loses nothing: two byte sequences that read as
    the same samples are the same bytes. *)
Theorem raw_pcm_injective (a b : bytes) (samples : list float) :
  raw_pcm a = Ok samples -> raw_pcm b = Ok samples -> a = b.
Proof.
  intros Ha Hb.
  destruct (raw_pcm_items a samples Ha) as (Hma & Hsa).
  destruct (raw_pcm_items b samples Hb) as (Hmb & Hsb).
  destruct (even_length_halves a Hma) as [ka Hka].
  destruct (even_length_halves b Hmb) as [kb Hkb].
  assert (ka = kb) as <-.
  { pose proof (length_int16_items a ka Hka) as Hla.
    pose proof (length_int16_items b kb Hkb) as Hlb.
    assert (length samples = ka) by (rewrite Hsa, length_map; exact Hla).
    assert (length samples = kb) by (rewrite Hsb, length_map; exact Hlb).
    lia. }
  apply (int16_items_inj ka a b Hka Hkb). congruence.
Qed.

Lemma raw_pcm_injective_witness :
  [Byte.x00; Byte.x40] = [Byte.x00; Byte.x40].
Proof.
  exact (raw_pcm_injective [Byte.x00; Byte.x40] [Byte.x00; Byte.x40]
           [0.5%float] eq_refl eq_refl).
Defined.

(** ** What holds in every run *)

Section Invariants.
Context `{SoundFile}.

(** A pass changes the queue, the buffer, the temporary directory and the
    console, and nothing else; what it prints is about chunks. *)
Lemma worker_iteration_frame (st : state) :
  sample_rate (exec worker_iteration st) = sample_rate st /\
  same_lifecycle st (exec worker_iteration st) /\
  exists printed,
    stdout (exec worker_iteration st) = stdout st ++ printed /\
    forall rate, Forall (expected_line rate) printed.
Proof.
  unfold exec.
  destruct (queue (audio_queue st)) as [|[data|] rest] eqn:Hq.
  - rewrite (worker_iteration_empty st Hq).
    split; [reflexivity|]. split; [apply same_lifecycle_refl|].
    exists []. split; [rewrite app_nil_r; reflexivity | constructor].
  - destruct (sf_decode data) as [[audio_array rate]|e] eqn:Hdec.
    + rewrite (worker_iteration_decoded st data rest audio_array rate Hq Hdec).
      split; [reflexivity|]. split; [repeat split|].
      eexists. split; [reflexivity|]. intros r. repeat constructor.
    + destruct (raw_pcm data) as [audio_array|e'] eqn:Hpcm.
      * rewrite (worker_iteration_fallback st data rest e audio_array
                   Hq Hdec Hpcm).
        split; [reflexivity|]. split; [repeat split|].
        eexists. split; [reflexivity|]. intros r. repeat constructor.
      * rewrite (worker_iteration_dropped st data rest e e' Hq Hdec Hpcm).
        split; [reflexivity|]. split; [repeat split|].
        eexists. split; [reflexivity|]. intros r. repeat constructor.
  - rewrite (worker_iteration_sentinel st rest Hq).
    split; [reflexivity|]. split; [repeat split|].
    exists []. split; [simpl; rewrite app_nil_r; reflexivity | constructor].
Qed.

(** A turn does what a pass does, and may end the thread that took it. *)
Lemma worker_turn_cases (tid : nat) (st : state) :
  exists st1,
    (st1 = st \/ st1 = exec worker_iteration st) /\
    (worker_turn tid st = st1 \/
     worker_turn tid st = set_threads (<[tid := false]> (threads st1)) st1).
Proof.
  destruct (is_alive tid st) eqn:Ha.
  2:{ exists st. split; [left; reflexivity|]. left.
      apply worker_turn_dead, Ha. }
  destruct (playing st) eqn:Hp.
  2:{ exists st. split; [left; reflexivity|]. right.
      apply worker_turn_stopped; assumption. }
  exists (exec worker_iteration st). split; [right; reflexivity|].
  rewrite (worker_turn_pass tid st Ha Hp). unfold exec.
  destruct (worker_iteration st) as [[[|]|e] st']; [left|right|right];
    reflexivity.
Qed.

Lemma worker_late_pass_cases (tid : nat) (st : state) :
  exists st1,
    (st1 = st \/ st1 = exec worker_iteration st) /\
    (worker_late_pass tid st = st1 \/
     worker_late_pass tid st
     = set_threads (<[tid := false]> (threads st1)) st1).
Proof.
  destruct (is_alive tid st) eqn:Ha.
  2:{ exists st. split; [left; reflexivity|]. left.
      apply worker_late_pass_dead, Ha. }
  exists (exec worker_iteration st). split; [right; reflexivity|].
  unfold worker_late_pass, exec. rewrite Ha.
  destruct (worker_iteration st) as [[[|]|e] st']; [left|right|right];
    reflexivity.
Qed.

(** What a state reached by a pass, or by none, with or without the end of
    the thread, has in common with the state before. *)
Lemma worker_step_frame_all (tid : nat) (st st2 : state) :
  (exists st1,
     (st1 = st \/ st1 = exec worker_iteration st) /\
     (st2 = st1 \/ st2 = set_threads (<[tid := false]> (threads st1)) st1)) ->
  sample_rate st2 = sample_rate st /\
  playing st2 = playing st /\
  streams st2 = streams st /\
  audio_thread st2 = audio_thread st /\
  audio_stream st2 = audio_stream st /\
  maxsize (audio_queue st2) = maxsize (audio_queue st) /\
  (forall t, is_alive t st2 = true -> is_alive t st = true) /\
  exists printed,
    stdout st2 = stdout st ++ printed /\
    forall rate, Forall (expected_line rate) printed.
Proof.
  intros (st1 & Hst1 & Hturn).
  assert (Hframe : sample_rate st1 = sample_rate st /\
                   same_lifecycle st st1 /\
                   exists printed,
                     stdout st1 = stdout st ++ printed /\
                     forall rate, Forall (expected_line rate) printed).
  { destruct Hst1 as [->| ->]; [|apply worker_iteration_frame].
    split; [reflexivity|]. split; [apply same_lifecycle_refl|].
    exists []. split; [rewrite app_nil_r; reflexivity | constructor]. }
  destruct Hframe as (Hsr & (Hp & Hths & Hsts & Hth & Hos & Hmx) & Hout).
  assert (Hkill : forall t ts,
            is_alive t (set_threads (<[tid := false]> ts) st1) = true ->
            match ts !! t with Some alive => alive | None => false end = true).
  { intros t ts. unfold is_alive. simpl.
    destruct (decide (t = tid)) as [->|Hne].
    - destruct (decide (tid < length ts)) as [Hlt|Hge].
      + rewrite list_lookup_insert_eq by exact Hlt. discriminate.
      + rewrite list_insert_ge by lia. auto.
    - rewrite list_lookup_insert_ne by congruence. auto. }
  destruct Hturn as [-> | ->].
  - repeat (split; [assumption|]). split; [|exact Hout].
    intros t. rewrite (is_alive_frame t st st1 Hths). auto.
  - simpl. repeat (split; [assumption|]). split; [|exact Hout].
    intros t Ht. apply Hkill in Ht. unfold is_alive. rewrite <- Hths.
    exact Ht.
Qed.

Lemma worker_turn_frame_all (tid : nat) (st : state) :
  sample_rate (worker_turn tid st) = sample_rate st /\
  playing (worker_turn tid st) = playing st /\
  streams (worker_turn tid st) = streams st /\
  audio_thread (worker_turn tid st) = audio_thread st /\
  audio_stream (worker_turn tid st) = audio_stream st /\
  maxsize (audio_queue (worker_turn tid st)) = maxsize (audio_queue st) /\
  (forall t, is_alive t (worker_turn tid st) = true -> is_alive t st = true) /\
  exists printed,
    stdout (worker_turn tid st) = stdout st ++ printed /\
    forall rate, Forall (expected_line rate) printed.
Proof.
  apply (worker_step_frame_all tid).
  destruct (worker_turn_cases tid st) as (st1 & Hst1 & Hturn). eauto.
Qed.

Lemma worker_late_pass_frame_all (tid : nat) (st : state) :
  sample_rate (worker_late_pass tid st) = sample_rate st /\
  playing (worker_late_pass tid st) = playing st /\
  streams (worker_late_pass tid st) = streams st /\
  audio_thread (worker_late_pass tid st) = audio_thread st /\
  audio_stream (worker_late_pass tid st) = audio_stream st /\
  maxsize (audio_queue (worker_late_pass tid st))
  = maxsize (audio_queue st) /\
  (forall t, is_alive t (worker_late_pass tid st) = true ->
             is_alive t st = true) /\
  exists printed,
    stdout (worker_late_pass tid st) = stdout st ++ printed /\
    forall rate, Forall (expected_line rate) printed.
Proof.
  apply (worker_step_frame_all tid).
  destruct (worker_late_pass_cases tid st) as (st1 & Hst1 & Hturn). eauto.
Qed.

Lemma step_kept (rate : Z) (st : state) (ev : event) :
  kept rate st -> kept rate (fst (step st ev)).
Proof.
  intros (Hsr & Hmax & Hout & Hone).
  destruct ev as [| |audio_data|tid|sid outdata status|tid]; cbn [step fst].
  - assert (Hcases : worker_alive st \/ worker_dead st).
    { unfold worker_alive, worker_dead.
      destruct (audio_thread st) as [tid|]; [|right; exact I].
      destruct (is_alive tid st) eqn:Ha.
      - left. exists tid. split; [reflexivity | exact Ha].
      - right. reflexivity. }
    unfold exec. destruct Hcases as [Halive|Hdead].
    + rewrite (start_when_alive st Halive). repeat split; assumption.
    + rewrite (start_when_not_alive st Hdead). cbn [snd].
      split; [exact Hsr|]. split; [exact Hmax|]. split.
      * simpl. apply Forall_app. split; [exact Hout|].
        repeat constructor. exact Hsr.
      * intros t. unfold is_alive. simpl. intros Ht.
        destruct (decide (t < length (threads st))) as [Hlt|Hge].
        -- rewrite lookup_app_l in Ht by exact Hlt.
           assert (is_alive t st = true) as Ha by exact Ht.
           pose proof (Hone t Ha) as Hth. unfold worker_dead in Hdead.
           rewrite Hth, Ha in Hdead. discriminate.
        -- destruct (decide (t = length (threads st))) as [->|Hne];
             [reflexivity|].
           rewrite lookup_ge_None_2 in Ht; [discriminate|].
           rewrite length_app. simpl. lia.
  - unfold exec. rewrite stop_run. cbn [snd].
    destruct (audio_stream st); repeat split; assumption.
  - unfold exec. rewrite add_audio_chunk_unbounded by exact Hmax.
    repeat split; assumption.
  - destruct (worker_turn_frame_all tid st)
      as (Hsr' & _ & _ & Hth & _ & Hmx & Hdie & printed & Hpr & Hexp).
    split; [congruence|]. split; [unfold unbounded in *; rewrite Hmx; exact Hmax|].
    split.
    + rewrite Hpr. apply Forall_app. split; [exact Hout | apply Hexp].
    + intros t Ht. rewrite Hth. apply Hone, Hdie, Ht.
  - destruct (is_active sid st) eqn:Ha; [|repeat split; assumption].
    pose proof (step_callback st sid outdata status Ha) as Hcb.
    cbn [step] in Hcb. rewrite Ha in Hcb. rewrite Hcb. cbn [fst].
    destruct status as [|flag status]; simpl.
    + repeat split; assumption.
    + split; [exact Hsr|]. split; [exact Hmax|]. split; [|exact Hone].
      apply Forall_app. split; [exact Hout|]. repeat constructor.
  - destruct (worker_late_pass_frame_all tid st)
      as (Hsr' & _ & _ & Hth & _ & Hmx & Hdie & printed & Hpr & Hexp).
    split; [congruence|].
    split; [unfold unbounded in *; rewrite Hmx; exact Hmax|].
    split.
    + rewrite Hpr. apply Forall_app. split; [exact Hout | apply Hexp].
    + intros t Ht. rewrite Hth. apply Hone, Hdie, Ht.
Qed.

Lemma run_kept (rate : Z) (trace : list event) :
  forall st, kept rate st -> kept rate (fst (run st trace)).
Proof.
  induction trace as [|ev trace IH]; intros st Hkept; [exact Hkept|].
  cbn [run]. pose proof (step_kept rate st ev Hkept) as Hstep.
  destruct (step st ev) as [st1 out1]. cbn [fst] in Hstep.
  specialize (IH st1 Hstep). destruct (run st1 trace) as [st2 out2].
  exact IH.
Qed.

Lemma init_kept (rate : Z) : kept rate (__init__ rate).
Proof.
  split; [reflexivity|]. split; [unfold unbounded; simpl; lia|].
  split; [constructor|]. intros t Ht. discriminate.
Qed.

End Invariants.

Section Runs.
Context `{SoundFile}.

(** X10. The sample rate is fixed at construction: no call, worker pass or
    callback changes it, whatever rate a decoded chunk declares, and every
    "Started streaming" line ever printed carries that rate. *)
Theorem sample_rate_fixed (rate : Z) (trace : list event) :
  sample_rate (fst (run (__init__ rate) trace)) = rate /\
  forall r,
    In (StartedStreaming r) (stdout (fst (run (__init__ rate) trace))) ->
    r = rate.
Proof.
  destruct (run_kept rate trace (__init__ rate) (init_kept rate))
    as (Hsr & _ & Hout & _).
  split; [exact Hsr|]. intros r Hin.
  rewrite Forall_forall in Hout.
  exact (Hout (StartedStreaming r) (proj2 (list_elem_of_In _ _) Hin)).
Qed.

(** X11. No chunk is ever dropped at submission: in every run from
    [__init__] the queue is below capacity, so [add_audio_chunk] puts its
    item at the tail of the queue, and the "queue is full" line is never
    printed. *)
Theorem submission_never_drops (rate : Z) (trace : list event)
    (audio_data : option bytes) :
  add_audio_chunk audio_data (fst (run (__init__ rate) trace))
  = (Ok tt,
     set_queue
       (queue (audio_queue (fst (run (__init__ rate) trace))) ++ [audio_data])
       (fst (run (__init__ rate) trace)))
  /\ ~ In QueueFullDropping (stdout (fst (run (__init__ rate) trace))).
Proof.
  destruct (run_kept rate trace (__init__ rate) (init_kept rate))
    as (_ & Hmax & Hout & _).
  split; [apply add_audio_chunk_unbounded, Hmax|].
  intros Hin. rewrite Forall_forall in Hout.
  exact (Hout QueueFullDropping (proj2 (list_elem_of_In _ _) Hin)).
Qed.

(** X12. At most one worker thread is alive at any time, and it is the one
    [audio_thread] refers to: [start()] launches a thread only when every
    earlier one has ended. *)
Theorem at_most_one_worker (rate : Z) (trace : list event) (t1 t2 : nat) :
  is_alive t1 (fst (run (__init__ rate) trace)) = true ->
  is_alive t2 (fst (run (__init__ rate) trace)) = true ->
  t1 = t2 /\ audio_thread (fst (run (__init__ rate) trace)) = Some t1.
Proof.
  destruct (run_kept rate trace (__init__ rate) (init_kept rate))
    as (_ & _ & _ & Hone).
  intros H1 H2. pose proof (Hone t1 H1) as Ht1. pose proof (Hone t2 H2) as Ht2.
  split; [congruence | exact Ht1].
Qed.

Lemma callback_keeps_active (st : state) (sid : nat) (outdata : list float)
    (status : list CallbackFlag) :
  is_active sid st = true ->
  is_active sid (fst (step st (DeviceCallback sid outdata status))) = true.
Proof.
  intros Ha. rewrite (step_callback st sid outdata status Ha). cbn [fst].
  destruct status; exact Ha.
Qed.

(** X13. Callbacks compose: a series of callbacks on an active stream,
    with nothing else in between, drains from the head of the buffer as
    many samples as the device asked for in all (or all there are), in
    order and without a gap, and hands the device exactly as many samples
    as it asked for, silence included. *)
Theorem callbacks_compose (sid : nat)
    (requests : list (list float * list CallbackFlag)) :
  forall st : state,
    is_active sid st = true ->
    drained (snd (run st (callbacks sid requests)))
    = take (frames_requested requests) (audio_data_buffer st) /\
    audio_data_buffer (fst (run st (callbacks sid requests)))
    = drop (frames_requested requests) (audio_data_buffer st) /\
    length (concat (map snd (snd (run st (callbacks sid requests)))))
    = frames_requested requests.
Proof.
  induction requests as [|[outdata status] requests IH]; intros st Ha.
  - simpl. rewrite take_0, drop_0. repeat split.
  - pose proof (callback_keeps_active st sid outdata status Ha) as Ha1.
    pose proof (step_callback st sid outdata status Ha) as Hstep.
    unfold callbacks, frames_requested in *. cbn [map fst snd run sum_list].
    destruct (step st (DeviceCallback sid outdata status)) as [st1 out1].
    cbn [fst] in Ha1. injection Hstep as -> ->.
    destruct (IH _ Ha1) as (Hdr & Hbuf & Hlen).
    destruct (run _ (map _ requests)) as [st2 out2]. cbn [fst snd] in *.
    assert (Hb1 : audio_data_buffer
                    (set_audio_data_buffer
                       (drop (length outdata) (audio_data_buffer st))
                       (reported status st))
                  = drop (length outdata) (audio_data_buffer st))
      by reflexivity.
    rewrite Hb1 in Hdr, Hbuf.
    split; [|split].
    + rewrite drained_app, Hdr. unfold drained. simpl.
      rewrite app_nil_r. apply take_take_drop.
    + rewrite Hbuf. apply drop_drop.
    + simpl. rewrite length_app, Hlen.
      rewrite length_app, length_map, length_take, length_replicate. lia.
Qed.

Lemma audio_callback_after_report (outdata : list float) (frames : nat)
    (status : list CallbackFlag) (st : state) :
  audio_callback outdata frames status st
  = audio_callback outdata frames [] (reported status st).
Proof. destruct status; reflexivity. Qed.

Lemma audio_callback_console (outdata : list float) (frames : nat)
    (printed : list line) (st : state) :
  fst (audio_callback outdata frames [] (set_stdout printed st))
  = fst (audio_callback outdata frames [] st) /\
  audio_data_buffer
    (exec (audio_callback outdata frames []) (set_stdout printed st))
  = audio_data_buffer (exec (audio_callback outdata frames []) st) /\
  stdout (exec (audio_callback outdata frames []) (set_stdout printed st))
  = printed.
Proof.
  destruct st as [[mx q] th pl sr os buf ths sts tmp out].
  unfold exec, audio_callback. py_unfold.
  destruct (Nat.leb frames (length buf));
    [|destruct (Nat.ltb 0 (length buf))];
    try destruct (Numpy.setitem_upto _ _ _); repeat split.
Qed.

(** X14. The flags the device reports do not touch playback: they are
    printed, once, and the samples drained, the samples delivered and the
    buffer left behind are what they would be without them. *)
Theorem status_only_reported (outdata : list float) (frames : nat)
    (status : list CallbackFlag) (st : state) :
  fst (audio_callback outdata frames status st)
  = fst (audio_callback outdata frames [] st) /\
  audio_data_buffer (exec (audio_callback outdata frames status) st)
  = audio_data_buffer (exec (audio_callback outdata frames []) st) /\
  stdout (exec (audio_callback outdata frames status) st)
  = match status with
    | [] => stdout st
    | _ => stdout st ++ [AudioStatus status]
    end.
Proof.
  unfold exec. rewrite audio_callback_after_report.
  destruct status as [|flag status]; unfold reported.
  - destruct (audio_callback_console outdata frames (stdout st) st)
      as (_ & _ & Hout).
    replace (set_stdout (stdout st) st) with st in Hout
      by (destruct st; reflexivity).
    split; [reflexivity|]. split; [reflexivity | exact Hout].
  - apply audio_callback_console.
Qed.

Lemma step_keeps_orphan (st : state) (ev : event) (sid : nat) :
  sid < length (streams st) -> audio_stream st <> Some sid ->
  sid < length (streams (fst (step st ev))) /\
  audio_stream (fst (step st ev)) <> Some sid /\
  streams (fst (step st ev)) !! sid = streams st !! sid.
Proof.
  intros Hlt Hne.
  destruct ev as [| |audio_data|tid|s outdata status|tid]; cbn [step fst].
  - assert (Hcases : worker_alive st \/ worker_dead st).
    { unfold worker_alive, worker_dead.
      destruct (audio_thread st) as [tid|]; [|right; exact I].
      destruct (is_alive tid st) eqn:Ha.
      - left. exists tid. split; [reflexivity | exact Ha].
      - right. reflexivity. }
    unfold exec. destruct Hcases as [Halive|Hdead].
    + rewrite (start_when_alive st Halive). repeat split; assumption.
    + rewrite (start_when_not_alive st Hdead). cbn [snd]. simpl.
      split; [rewrite length_app; simpl; lia|].
      split; [intros [= Heq]; lia|].
      apply lookup_app_l, Hlt.
  - unfold exec. rewrite stop_run. cbn [snd].
    destruct (audio_stream st) as [s|] eqn:Hs; simpl; rewrite Hs.
    + split; [rewrite length_insert; exact Hlt|].
      split; [exact Hne|].
      apply list_lookup_insert_ne. congruence.
    + repeat split; assumption.
  - unfold exec. rewrite add_audio_chunk_run. cbn [snd].
    destruct (queue_full (audio_queue st)); repeat split; assumption.
  - destruct (worker_turn_frame_all tid st)
      as (_ & _ & Hsts & _ & Hos & _).
    rewrite Hsts, Hos. repeat split; assumption.
  - destruct (is_active s st) eqn:Ha; [|repeat split; assumption].
    pose proof (step_callback st s outdata status Ha) as Hcb.
    cbn [step] in Hcb. rewrite Ha in Hcb. rewrite Hcb. cbn [fst].
    destruct status; repeat split; assumption.
  - destruct (worker_late_pass_frame_all tid st)
      as (_ & _ & Hsts & _ & Hos & _).
    rewrite Hsts, Hos. repeat split; assumption.
Qed.

(** X16. An output stream that [audio_stream] no longer refers to is out of
    reach: no later call, worker pass or callback stops it, closes it or
    changes it in any way.  A stream replaced while it was active stays
    active. *)
Theorem orphan_stream_untouched (trace : list event) (sid : nat) :
  forall st : state,
    sid < length (streams st) -> audio_stream st <> Some sid ->
    streams (fst (run st trace)) !! sid = streams st !! sid.
Proof.
  induction trace as [|ev trace IH]; intros st Hlt Hne; [reflexivity|].
  cbn [run].
  destruct (step_keeps_orphan st ev sid Hlt Hne) as (Hlt1 & Hne1 & Hsame).
  destruct (step st ev) as [st1 out1]. cbn [fst] in *.
  specialize (IH st1 Hlt1 Hne1).
  destruct (run st1 trace) as [st2 out2]. cbn [fst] in *. congruence.
Qed.

End Runs.

Lemma at_most_one_worker_witness :
  1 = 1 /\
  audio_thread
    (fst (@run headerless (__init__ 48000)
            [CallStart; CallAdd None; WorkerTurn 0; CallStart]))
  = Some 1.
Proof.
  exact (@at_most_one_worker headerless 48000
           [CallStart; CallAdd None; WorkerTurn 0; CallStart] 1 1
           eq_refl eq_refl).
Defined.

Lemma callbacks_compose_witness :
  let st := set_audio_data_buffer
              [0.5%float; 0.25%float; (-0.5)%float; 0.125%float]
              (exec start (__init__ 48000)) in
  let requests := [([0%float; 0%float], []);
                   ([0%float; 0%float; 0%float], [output_underflow])] in
  drained (snd (@run headerless st (callbacks 0 requests)))
  = take 5 [0.5%float; 0.25%float; (-0.5)%float; 0.125%float] /\
  length (concat (map snd (snd (@run headerless st (callbacks 0 requests)))))
  = 5.
Proof.
  intros st requests.
  destruct (@callbacks_compose headerless 0 requests st eq_refl)
    as (Hdr & _ & Hlen).
  split; [exact Hdr | exact Hlen].
Defined.

Lemma orphan_stream_untouched_witness :
  let st := fst (@run headerless (__init__ 48000)
                   [CallStart; CallAdd None; WorkerTurn 0; CallStart]) in
  streams (fst (@run headerless st [CallStop; CallStart; CallStop])) !! 0
  = Some Active.
Proof.
  intros st.
  exact (@orphan_stream_untouched headerless
           [CallStop; CallStart; CallStop] 0 st
           ltac:(vm_compute; lia) ltac:(discriminate)).
Defined.

Section Conservation.
Context `{SoundFile}.

Lemma step_flag_matches (st : state) (ev : event) :
  flag_matches_stream st -> flag_matches_stream (fst (step st ev)).
Proof.
  unfold flag_matches_stream. intros Hinv.
  destruct ev as [| |audio_data|tid|s outdata status|tid]; cbn [step fst].
  - assert (Hcases : worker_alive st \/ worker_dead st).
    { unfold worker_alive, worker_dead.
      destruct (audio_thread st) as [tid|]; [|right; exact I].
      destruct (is_alive tid st) eqn:Ha.
      - left. exists tid. split; [reflexivity | exact Ha].
      - right. reflexivity. }
    unfold exec. destruct Hcases as [Halive|Hdead].
    + rewrite (start_when_alive st Halive). exact Hinv.
    + rewrite (start_when_not_alive st Hdead). simpl.
      apply list_lookup_middle. reflexivity.
  - unfold exec. rewrite stop_run. cbn [snd].
    destruct (audio_stream st) as [sid|] eqn:Hs; simpl; rewrite Hs;
      [|reflexivity].
    apply list_lookup_insert_eq. eapply lookup_lt_Some, Hinv.
  - unfold exec. rewrite add_audio_chunk_run. cbn [snd].
    destruct (queue_full (audio_queue st)); exact Hinv.
  - destruct (worker_turn_frame_all tid st)
      as (_ & Hp & Hsts & _ & Hos & _).
    rewrite Hp, Hsts, Hos. exact Hinv.
  - destruct (is_active s st) eqn:Ha; [|exact Hinv].
    pose proof (step_callback st s outdata status Ha) as Hcb.
    cbn [step] in Hcb. rewrite Ha in Hcb. rewrite Hcb. cbn [fst].
    destruct status; exact Hinv.
  - destruct (worker_late_pass_frame_all tid st)
      as (_ & Hp & Hsts & _ & Hos & _).
    rewrite Hp, Hsts, Hos. exact Hinv.
Qed.

Lemma run_flag_matches (trace : list event) :
  forall st, flag_matches_stream st ->
    flag_matches_stream (fst (run st trace)).
Proof.
  induction trace as [|ev trace IH]; intros st Hinv; [exact Hinv|].
  cbn [run]. pose proof (step_flag_matches st ev Hinv) as Hstep.
  destruct (step st ev) as [st1 out1]. cbn [fst] in Hstep.
  specialize (IH st1 Hstep). destruct (run st1 trace) as [st2 out2].
  exact IH.
Qed.

(** X17. The flag and the device agree in every run: [playing] is up
    exactly when the output stream [audio_stream] refers to is active, and
    whenever it is down the stream is stopped, with no output stream open
    under [audio_stream]. *)
Theorem flag_follows_stream (rate : Z) (trace : list event) :
  (playing (fst (run (__init__ rate) trace)) = true <->
   exists sid,
     audio_stream (fst (run (__init__ rate) trace)) = Some sid /\
     is_active sid (fst (run (__init__ rate) trace)) = true)
  /\ (playing (fst (run (__init__ rate) trace)) = false ->
      Stopped (fst (run (__init__ rate) trace))).
Proof.
  pose proof (run_flag_matches trace (__init__ rate) eq_refl) as Hinv.
  set (st := fst (run (__init__ rate) trace)) in *.
  unfold flag_matches_stream in Hinv. unfold Stopped, is_active.
  destruct (audio_stream st) as [sid|].
  - destruct (playing st).
    + split; [|discriminate]. split; [|reflexivity].
      intros _. exists sid. rewrite Hinv. split; reflexivity.
    + split.
      * split; [discriminate|]. intros (sid' & [= <-] & Hact).
        rewrite Hinv in Hact. discriminate.
      * intros _. split; [reflexivity | exact Hinv].
  - rewrite Hinv. split.
    + split; [discriminate|]. intros (sid' & Hsid & _). discriminate.
    + intros _. split; [reflexivity | exact I].
Qed.

(** A pass moves samples from the queue to the buffer and loses none,
    whatever is at the head of the queue. *)
Lemma worker_iteration_in_flight (st : state) :
  in_flight (exec worker_iteration st) = in_flight st.
Proof.
  unfold exec, in_flight, pending.
  destruct (queue (audio_queue st)) as [|[data|] rest] eqn:Hq.
  - rewrite (worker_iteration_empty st Hq). cbn [snd]. rewrite Hq.
    reflexivity.
  - destruct (worker_iteration_chunk st data rest Hq)
      as (st' & Hrun & Hbuf & Hq' & _).
    rewrite Hrun. cbn [snd]. rewrite Hbuf, Hq'. simpl.
    rewrite <- app_assoc. reflexivity.
  - rewrite (worker_iteration_sentinel st rest Hq). reflexivity.
Qed.

Lemma worker_turn_in_flight (tid : nat) (st : state) :
  in_flight (worker_turn tid st) = in_flight st.
Proof.
  destruct (worker_turn_cases tid st) as (st1 & Hst1 & Hturn).
  assert (in_flight st1 = in_flight st) as <-
    by (destruct Hst1 as [->| ->];
        [reflexivity | apply worker_iteration_in_flight]).
  destruct Hturn as [-> | ->]; reflexivity.
Qed.

Lemma worker_late_pass_in_flight (tid : nat) (st : state) :
  in_flight (worker_late_pass tid st) = in_flight st.
Proof.
  destruct (worker_late_pass_cases tid st) as (st1 & Hst1 & Hturn).
  assert (in_flight st1 = in_flight st) as <-
    by (destruct Hst1 as [->| ->];
        [reflexivity | apply worker_iteration_in_flight]).
  destruct Hturn as [-> | ->]; reflexivity.
Qed.

Lemma step_in_flight (st : state) (ev : event) :
  unbounded st ->
  drained (snd (step st ev)) ++ in_flight (fst (step st ev))
  = in_flight st ++ flat_map decoded (submitted [ev]).
Proof.
  intros Hmax.
  destruct ev as [| |audio_data|tid|sid outdata status|tid]; cbn [step fst snd].
  - assert (Hsame : in_flight (exec start st) = in_flight st).
    { assert (Hcases : worker_alive st \/ worker_dead st).
      { unfold worker_alive, worker_dead.
        destruct (audio_thread st) as [tid|]; [|right; exact I].
        destruct (is_alive tid st) eqn:Ha.
        - left. exists tid. split; [reflexivity | exact Ha].
        - right. reflexivity. }
      unfold exec. destruct Hcases as [Halive|Hdead].
      - rewrite (start_when_alive st Halive). reflexivity.
      - rewrite (start_when_not_alive st Hdead). reflexivity. }
    rewrite Hsame. simpl. rewrite app_nil_r. reflexivity.
  - unfold exec. rewrite stop_run. cbn [snd]. simpl. rewrite app_nil_r.
    destruct (audio_stream st); reflexivity.
  - unfold exec. rewrite add_audio_chunk_unbounded by exact Hmax. cbn [snd].
    unfold in_flight, pending, drained. simpl.
    rewrite omap_app, flat_map_app, app_assoc.
    destruct audio_data; simpl; rewrite ?app_nil_r; reflexivity.
  - rewrite worker_turn_in_flight. simpl. rewrite app_nil_r. reflexivity.
  - destruct (is_active sid st) eqn:Ha.
    + pose proof (step_callback st sid outdata status Ha) as Hcb.
      cbn [step] in Hcb. rewrite Ha in Hcb. rewrite Hcb. cbn [fst snd].
      destruct (reported_frame status st) as (_ & Hq & _).
      unfold drained, in_flight, pending. simpl.
      rewrite Hq. rewrite !app_nil_r, app_assoc, take_drop. reflexivity.
    + simpl. rewrite app_nil_r. reflexivity.
  - rewrite worker_late_pass_in_flight. simpl. rewrite app_nil_r. reflexivity.
Qed.

(** X18. Nothing is lost and nothing is played twice, in any run: whatever
    the calls to [start()], [stop()] and [add_audio_chunk] (sentinels
    included) and however the worker and the device take their turns, the
    samples drained so far, followed by those buffered and those the queued
    chunks will give, are the decoded samples of the submitted chunks in
    submission order. *)
Theorem samples_conserved (rate : Z) (trace : list event) :
  drained (snd (run (__init__ rate) trace))
  ++ in_flight (fst (run (__init__ rate) trace))
  = flat_map decoded (submitted trace).
Proof.
  enough (Hgen : forall st, kept rate st ->
            drained (snd (run st trace)) ++ in_flight (fst (run st trace))
            = in_flight st ++ flat_map decoded (submitted trace))
    by exact (Hgen (__init__ rate) (init_kept rate)).
  induction trace as [|ev trace IH]; intros st Hkept.
  - simpl. rewrite app_nil_r. reflexivity.
  - pose proof (step_kept rate st ev Hkept) as Hkept1.
    pose proof (step_in_flight st ev (proj1 (proj2 Hkept))) as Hstep.
    cbn [run]. destruct (step st ev) as [st1 out1]. cbn [fst snd] in *.
    specialize (IH st1 Hkept1).
    destruct (run st1 trace) as [st2 out2]. cbn [fst snd] in *.
    rewrite drained_app, <- app_assoc, IH, app_assoc, Hstep, <- app_assoc.
    f_equal. destruct ev as [| |[data|]|?|? ? ?|?]; simpl; rewrite ?app_nil_r;
      reflexivity.
Qed.

End Conservation.
(** ** Submissions to a stopped stream, and what a stop/start cycle keeps *)

Section Lifecycle.
Context `{SoundFile}.

Lemma idle_not_start (idle : list event) :
  forallb idle_event idle = true ->
  forallb not_start idle = true /\ offered idle = [].
Proof.
  induction idle as [|ev idle IH]; intros Hall; [split; reflexivity|].
  simpl in Hall. apply andb_prop in Hall as [Hev Hall].
  destruct (IH Hall) as [Hns Hoff].
  destruct ev; try discriminate; simpl; rewrite Hns, Hoff; split; reflexivity.
Qed.

(** With at most one live thread, the one [audio_thread] refers to, a dead
    worker means no thread is alive. *)
Lemma single_worker_dead (st : state) :
  single_worker st -> worker_dead st -> no_thread_alive st.
Proof.
  intros Hone Hdead. apply Forall_lookup. intros t alive Hl.
  destruct alive; [|reflexivity]. exfalso.
  assert (Ha : is_alive t st = true) by (unfold is_alive; rewrite Hl; reflexivity).
  pose proof (Hone t Ha) as Hth. unfold worker_dead in Hdead.
  rewrite Hth in Hdead. congruence.
Qed.

(** C9 (as amended). In a state the streamer can reach, Stopped, with its
    worker thread ended (or never started) and no [None] in the queue:
    submitting a chunk raises nothing and puts it at the tail of the queue;
    whatever happens next short of a [start()] or another submission (loop
    tests and late passes of any thread, device callbacks, [stop()]), the
    queue stays as it is, the chunk in it; the [start()] that follows
    returns with the flag up and a new worker thread, and the turns of that
    worker decode the queued chunks in order, this one last, behind the
    samples still buffered. *)
Theorem chunk_submitted_while_stopped (rate : Z) (trace idle : list event)
    (data : bytes) :
  let st := fst (run (__init__ rate) trace) in
  Stopped st -> worker_dead st -> chunks_only st ->
  forallb idle_event idle = true ->
  let st1 := exec (add_audio_chunk (Some data)) st in
  let st1' := fst (run st1 idle) in
  let st2 := exec start st1' in
  let tid := length (threads st1') in
  add_audio_chunk (Some data) st = (Ok tt, st1) /\
  queue (audio_queue st1) = queue (audio_queue st) ++ [Some data] /\
  queue (audio_queue st1') = queue (audio_queue st) ++ [Some data] /\
  (exists k, audio_data_buffer st1' = drop k (audio_data_buffer st)) /\
  start st1' = (Ok tt, st2) /\
  Running st2 /\ is_alive tid st2 = true /\
  exists st3,
    run st2 (replicate (length (queue (audio_queue st2))) (WorkerTurn tid))
    = (st3, []) /\
    queue (audio_queue st3) = [] /\
    audio_data_buffer st3
    = audio_data_buffer st1' ++ flat_map decoded (pending st) ++ decoded data.
Proof.
  intros st Hstopped Hdead Hch Hidle st1 st1' st2 tid.
  destruct (run_kept rate trace (__init__ rate) (init_kept rate))
    as (_ & Hmax & _ & Hone).
  fold st in Hmax, Hone.
  pose proof (single_worker_dead st Hone Hdead) as Hnone.
  assert (Hst1 : st1 = set_queue (queue (audio_queue st) ++ [Some data]) st).
  { unfold st1, exec. rewrite add_audio_chunk_unbounded by exact Hmax.
    reflexivity. }
  assert (Hadd : add_audio_chunk (Some data) st = (Ok tt, st1)).
  { unfold st1, exec. rewrite add_audio_chunk_unbounded by exact Hmax.
    reflexivity. }
  assert (Hq1 : queue (audio_queue st1)
                = queue (audio_queue st) ++ [Some data])
    by (rewrite Hst1; reflexivity).
  assert (Hnone1 : no_thread_alive st1) by (rewrite Hst1; exact Hnone).
  assert (Hmax1 : unbounded st1) by (rewrite Hst1; exact Hmax).
  destruct (idle_not_start idle Hidle) as [Hns Hoff].
  destruct (run_without_worker idle st1 Hnone1 Hmax1 Hns)
    as (Hnone1' & Hmax1' & [k Hbuf1'] & Hq1').
  fold st1' in Hnone1', Hmax1', Hbuf1', Hq1'.
  rewrite Hoff, app_nil_r, Hq1 in Hq1'.
  assert (Hbuf1 : audio_data_buffer st1 = audio_data_buffer st)
    by (rewrite Hst1; reflexivity).
  rewrite Hbuf1 in Hbuf1'.
  assert (Hdead1' : worker_dead st1').
  { unfold worker_dead. destruct (audio_thread st1') as [t|]; [|exact I].
    apply no_thread_alive_dead, Hnone1'. }
  assert (Hstart : start st1' = (Ok tt, st2)).
  { unfold st2, exec. rewrite (start_when_not_alive st1' Hdead1').
    reflexivity. }
  assert (Hq2 : queue (audio_queue st2)
                = queue (audio_queue st) ++ [Some data]).
  { unfold st2, exec. rewrite (start_when_not_alive st1' Hdead1').
    exact Hq1'. }
  assert (Ha2 : is_alive tid st2 = true).
  { unfold st2, exec. rewrite (start_when_not_alive st1' Hdead1').
    unfold is_alive, tid. simpl.
    rewrite list_lookup_middle by reflexivity. reflexivity. }
  assert (Hp2 : playing st2 = true).
  { unfold st2, exec. rewrite (start_when_not_alive st1' Hdead1').
    reflexivity. }
  assert (Hbuf2 : audio_data_buffer st2 = audio_data_buffer st1').
  { unfold st2, exec. rewrite (start_when_not_alive st1' Hdead1').
    reflexivity. }
  split; [exact Hadd|]. split; [exact Hq1|]. split; [exact Hq1'|].
  split; [exists k; exact Hbuf1'|].
  split; [exact Hstart|]. split; [exact Hp2|]. split; [exact Ha2|].
  assert (Hall : Forall (fun item : option bytes => item <> None)
                   (queue (audio_queue st) ++ [Some data])).
  { apply Forall_app. split; [exact Hch|]. repeat constructor. discriminate. }
  destruct (run_worker_turns tid (queue (audio_queue st) ++ [Some data]) st2 []
              ltac:(rewrite app_nil_r; exact Hq2) Hall Hp2 Ha2)
    as (st3 & Hrun & _ & Hq3 & Hbuf3).
  exists st3. rewrite Hq2. split; [exact Hrun|]. split; [exact Hq3|].
  rewrite Hbuf3, Hbuf2, omap_app, flat_map_app. simpl.
  rewrite app_nil_r. reflexivity.
Qed.

(** What a pass takes from the queue it decodes into the buffer. *)
Lemma worker_iteration_takes (st : state) :
  exists k,
    queue (audio_queue (exec worker_iteration st))
    = drop k (queue (audio_queue st)) /\
    audio_data_buffer (exec worker_iteration st)
    = audio_data_buffer st
      ++ flat_map decoded (omap id (take k (queue (audio_queue st)))).
Proof.
  unfold exec.
  destruct (queue (audio_queue st)) as [|[data|] rest] eqn:Hq.
  - exists 0. rewrite (worker_iteration_empty st Hq). cbn [snd].
    rewrite Hq. simpl. rewrite app_nil_r. split; reflexivity.
  - exists 1.
    destruct (worker_iteration_chunk st data rest Hq)
      as (st' & Hrun & Hbuf & Hq' & _).
    rewrite Hrun. cbn [snd]. rewrite Hbuf, Hq'. simpl.
    rewrite ?drop_0, ?take_0. simpl. rewrite ?app_nil_r. split; reflexivity.
  - exists 1. rewrite (worker_iteration_sentinel st rest Hq). simpl.
    rewrite ?drop_0, ?take_0. simpl. rewrite ?app_nil_r. split; reflexivity.
Qed.

Lemma worker_event_takes (st : state) (ev : event) :
  worker_event ev = true ->
  exists k,
    queue (audio_queue (fst (step st ev))) = drop k (queue (audio_queue st)) /\
    audio_data_buffer (fst (step st ev))
    = audio_data_buffer st
      ++ flat_map decoded (omap id (take k (queue (audio_queue st)))).
Proof.
  intros Hev.
  assert (Hcases : exists st1,
             (st1 = st \/ st1 = exec worker_iteration st) /\
             exists ths, fst (step st ev) = st1 \/
                         fst (step st ev) = set_threads ths st1).
  { destruct ev as [| |audio_data|tid|sid outdata status|tid];
      try discriminate; cbn [step fst].
    - destruct (worker_turn_cases tid st) as (st1 & Hst1 & Hturn).
      exists st1. split; [exact Hst1|]. eexists. exact Hturn.
    - destruct (worker_late_pass_cases tid st) as (st1 & Hst1 & Hturn).
      exists st1. split; [exact Hst1|]. eexists. exact Hturn. }
  destruct Hcases as (st1 & Hst1 & ths & Hstep).
  assert (Hst1' : exists k,
             queue (audio_queue st1) = drop k (queue (audio_queue st)) /\
             audio_data_buffer st1
             = audio_data_buffer st
               ++ flat_map decoded (omap id (take k (queue (audio_queue st))))).
  { destruct Hst1 as [->| ->]; [|apply worker_iteration_takes].
    exists 0. simpl. rewrite app_nil_r. split; reflexivity. }
  destruct Hst1' as (k & Hq & Hbuf). exists k.
  destruct Hstep as [-> | ->]; split; assumption.
Qed.

Lemma run_worker_events_take (trace : list event) :
  forall st : state,
    forallb worker_event trace = true ->
    exists k,
      queue (audio_queue (fst (run st trace)))
      = drop k (queue (audio_queue st)) /\
      audio_data_buffer (fst (run st trace))
      = audio_data_buffer st
        ++ flat_map decoded (omap id (take k (queue (audio_queue st)))).
Proof.
  induction trace as [|ev trace IH]; intros st Hall.
  - exists 0. simpl. rewrite app_nil_r. split; reflexivity.
  - simpl in Hall. apply andb_prop in Hall as [Hev Hall].
    destruct (worker_event_takes st ev Hev) as (k1 & Hq1 & Hbuf1).
    cbn [run]. destruct (step st ev) as [st1 out1]. cbn [fst] in Hq1, Hbuf1.
    destruct (IH st1 Hall) as (k2 & Hq2 & Hbuf2).
    destruct (run st1 trace) as [st2 out2]. cbn [fst] in *.
    exists (k1 + k2). split.
    + rewrite Hq2, Hq1, drop_drop. reflexivity.
    + rewrite Hbuf2, Hbuf1, Hq1, <- app_assoc. f_equal.
      rewrite <- flat_map_app, <- omap_app, take_take_drop. reflexivity.
Qed.

(** X15. A [stop()]/[start()] cycle discards nothing.  Whatever the worker
    threads do in between, their loop tests and the passes they had begun
    before [stop()], the queue after [start()] is the queue before
    [stop()] less the items taken from its head, and the buffer is the
    buffer before [stop()] followed by the decoded samples of the chunks
    among those items, in order. *)
Theorem stop_start_keeps_audio (st : state) (trace : list event) :
  forallb worker_event trace = true ->
  let st' := fst (run st (CallStop :: trace ++ [CallStart])) in
  exists k,
    queue (audio_queue st') = drop k (queue (audio_queue st)) /\
    audio_data_buffer st'
    = audio_data_buffer st
      ++ flat_map decoded (omap id (take k (queue (audio_queue st)))).
Proof.
  intros Hall st'. subst st'. cbn [run step]. rewrite run_app.
  assert (Hstop : audio_data_buffer (exec stop st) = audio_data_buffer st /\
                  queue (audio_queue (exec stop st)) = queue (audio_queue st)).
  { unfold exec. rewrite stop_run. cbn [snd].
    destruct (audio_stream st); split; reflexivity. }
  destruct Hstop as (Hbuf & Hq).
  destruct (run_worker_events_take trace (exec stop st) Hall)
    as (k & Hq1 & Hbuf1).
  destruct (run (exec stop st) trace) as [st1 out1].
  cbn [fst] in *. cbn [run step fst].
  assert (Hstart : audio_data_buffer (exec start st1) = audio_data_buffer st1
                   /\ queue (audio_queue (exec start st1))
                      = queue (audio_queue st1)).
  { assert (Hcases : worker_alive st1 \/ worker_dead st1).
    { unfold worker_alive, worker_dead.
      destruct (audio_thread st1) as [tid|]; [|right; exact I].
      destruct (is_alive tid st1) eqn:Ha.
      - left. exists tid. split; [reflexivity | exact Ha].
      - right. reflexivity. }
    unfold exec. destruct Hcases as [Halive|Hdead].
    - rewrite (start_when_alive st1 Halive). split; reflexivity.
    - rewrite (start_when_not_alive st1 Hdead). split; reflexivity. }
  destruct Hstart as (Hbuf2 & Hq2). exists k. simpl.
  rewrite Hbuf2, Hq2, Hq1, Hbuf1, Hq, Hbuf. split; reflexivity.
Qed.

End Lifecycle.

Lemma chunk_submitted_while_stopped_witness :
  let trace := [CallStart; CallAdd (Some [Byte.x00; Byte.x40]); WorkerTurn 0;
                CallStop; WorkerTurn 0] in
  let idle := [WorkerLatePass 0; DeviceCallback 0 [0%float] []; CallStop] in
  let st := fst (@run headerless (__init__ 48000) trace) in
  let st1 := exec (add_audio_chunk (Some [Byte.x00; Byte.x20])) st in
  let st2 := exec start (fst (@run headerless st1 idle)) in
  Stopped st /\ worker_dead st /\ chunks_only st /\
  add_audio_chunk (Some [Byte.x00; Byte.x20]) st = (Ok tt, st1) /\
  queue (audio_queue (fst (@run headerless st1 idle)))
  = [Some [Byte.x00; Byte.x20]] /\
  exists st3,
    @run headerless st2 [WorkerTurn 1] = (st3, []) /\
    queue (audio_queue st3) = [] /\
    audio_data_buffer st3 = [0.5%float; 0.25%float].
Proof.
  intros trace idle st st1 st2.
  assert (Hstopped : Stopped st) by (split; reflexivity).
  assert (Hdead : worker_dead st) by reflexivity.
  assert (Hch : chunks_only st) by constructor.
  destruct (@chunk_submitted_while_stopped headerless 48000 trace idle
              [Byte.x00; Byte.x20] Hstopped Hdead Hch eq_refl)
    as (Hadd & _ & Hq & _ & _ & _ & _ & st3 & Hrun & Hq3 & Hbuf3).
  split; [exact Hstopped|]. split; [exact Hdead|]. split; [exact Hch|].
  split; [exact Hadd|]. split; [exact Hq|].
  exists st3. split; [exact Hrun|]. split; [exact Hq3 | exact Hbuf3].
Defined.

(** Two Stopped states in which a submitted chunk is not processed once
    [start()] is called; the decoder leaves every chunk to the raw-PCM
    reading.

    A [None] is queued ahead of the chunk: the worker [start()] launches
    takes the sentinel and returns (lines 82-83).  The flag is up, no
    thread is alive, the chunk is still queued, and nothing is decoded for
    as long as [start()] is not called again.

    The worker of an earlier [start()] is in the pass of a first chunk
    when [stop()] is called, and is still in it when the join of line 41
    gives up: the state is Stopped and the thread alive.  [start()] then
    does nothing (line 28), the flag stays down; the worker ends its pass,
    finds the flag down at its loop test (line 78) and returns.  The first
    chunk is decoded, the one submitted while Stopped is still queued with
    no thread alive. *)
Lemma chunk_stranded_after_start :
  let chunk := [Byte.x00; Byte.x20] in
  (let st := fst (@run headerless (__init__ 48000) [CallAdd None]) in
   let st1 := exec (add_audio_chunk (Some chunk)) st in
   let st3 := fst (@run headerless (exec start st1) [WorkerTurn 0]) in
   Stopped st /\ worker_dead st /\
   add_audio_chunk (Some chunk) st = (Ok tt, st1) /\
   fst (start st1) = Ok tt /\
   Running st3 /\ no_thread_alive st3 /\
   queue (audio_queue st3) = [Some chunk] /\
   forall rest, forallb not_start rest = true ->
     audio_data_buffer (fst (@run headerless st3 rest)) = [] /\
     queue (audio_queue (fst (@run headerless st3 rest)))
     = Some chunk :: offered rest) /\
  (let st := fst (@run headerless (__init__ 48000)
                    [CallStart; CallAdd (Some [Byte.x00; Byte.x40]);
                     CallStop]) in
   let st1 := exec (add_audio_chunk (Some chunk)) st in
   let st3 := fst (@run headerless (exec start st1)
                     [WorkerLatePass 0; WorkerTurn 0]) in
   Stopped st /\ chunks_only st /\ is_alive 0 st = true /\
   add_audio_chunk (Some chunk) st = (Ok tt, st1) /\
   start st1 = (Ok tt, st1) /\
   playing st3 = false /\ no_thread_alive st3 /\
   queue (audio_queue st3) = [Some chunk] /\
   audio_data_buffer st3 = [0.5%float] /\
   forall rest, forallb not_start rest = true ->
     (exists k, audio_data_buffer (fst (@run headerless st3 rest))
                = drop k [0.5%float]) /\
     queue (audio_queue (fst (@run headerless st3 rest)))
     = Some chunk :: offered rest).
Proof.
  intros chunk. split.
  - intros st st1 st3.
    assert (Hnone : no_thread_alive st3) by (repeat constructor).
    assert (Hmax : unbounded st3) by (vm_compute; discriminate).
    split; [split; reflexivity|]. split; [exact I|].
    split; [reflexivity|]. split; [reflexivity|]. split; [reflexivity|].
    split; [exact Hnone|]. split; [reflexivity|].
    intros rest Hrest.
    destruct (@run_without_worker headerless rest st3 Hnone Hmax Hrest)
      as (_ & _ & [k Hbuf] & Hq).
    split; [|exact Hq].
    rewrite Hbuf. change (audio_data_buffer st3) with (@nil float).
    apply drop_nil.
  - intros st st1 st3.
    assert (Hnone : no_thread_alive st3) by (repeat constructor).
    assert (Hmax : unbounded st3) by (vm_compute; discriminate).
    split; [split; reflexivity|]. split; [repeat constructor; discriminate|].
    split; [reflexivity|]. split; [reflexivity|]. split; [reflexivity|].
    split; [reflexivity|]. split; [exact Hnone|]. split; [reflexivity|].
    split; [reflexivity|].
    intros rest Hrest.
    destruct (@run_without_worker headerless rest st3 Hnone Hmax Hrest)
      as (_ & _ & Hbuf & Hq).
    split; [exact Hbuf | exact Hq].
Qed.

Lemma stop_start_keeps_audio_witness :
  let st := fst (@run headerless (__init__ 48000)
                   [CallStart; CallAdd (Some [Byte.x00; Byte.x40]);
                    CallAdd (Some [Byte.x00; Byte.x20])]) in
  let trace := [WorkerLatePass 0; WorkerTurn 0] in
  let st' := fst (@run headerless st (CallStop :: trace ++ [CallStart])) in
  forallb worker_event trace = true /\
  exists k,
    queue (audio_queue st') = drop k (queue (audio_queue st)) /\
    audio_data_buffer st'
    = audio_data_buffer st
      ++ flat_map (@decoded headerless)
           (omap id (take k (queue (audio_queue st)))).
Proof.
  intros st trace st'. split; [reflexivity|].
  exact (@stop_start_keeps_audio headerless st trace eq_refl).
Defined.

(** The pass a worker had begun before [stop()]: the head of the queue is
    decoded into the buffer between [stop()] and [start()], the next chunk
    waits for the new worker. *)
Example late_pass_after_stop :
  let st := fst (@run headerless (__init__ 48000)
                   [CallStart; CallAdd (Some [Byte.x00; Byte.x40]);
                    CallAdd (Some [Byte.x00; Byte.x20])]) in
  let st' := fst (@run headerless st
                    [CallStop; WorkerLatePass 0; WorkerTurn 0; CallStart]) in
  audio_data_buffer st = [] /\
  queue (audio_queue st)
  = [Some [Byte.x00; Byte.x40]; Some [Byte.x00; Byte.x20]] /\
  audio_data_buffer st' = [0.5%float] /\
  queue (audio_queue st') = [Some [Byte.x00; Byte.x20]] /\
  threads st' = [false; true] /\ Running st'.
Proof. vm_compute. repeat split. Qed.
(** ** The events cover the loop taken statement by statement *)

Section Granularity.
Context `{SoundFile}.

Lemma act_events (st : state) (past : gset nat) (a : action) :
  run st (events_of st past a)
  = (fst (fst (act st past a)), snd (act st past a)).
Proof.
  destruct a as [ev|tid|tid]; cbn [act events_of].
  - destruct (worker_event ev); [reflexivity|].
    cbn [run]. destruct (step st ev) as [st1 out1]. cbn [fst snd].
    rewrite app_nil_r. reflexivity.
  - destruct (is_alive tid st) eqn:Ha; [|reflexivity].
    destruct (bool_decide (tid ∈ past)); [reflexivity|]. cbn [andb negb].
    destruct (playing st) eqn:Hp; [reflexivity|].
    cbn [run step fst snd]. rewrite worker_turn_stopped by assumption.
    reflexivity.
  - destruct (is_alive tid st) eqn:Ha; [|reflexivity].
    destruct (bool_decide (tid ∈ past)); [|reflexivity]. cbn [andb].
    cbn [run step]. unfold worker_late_pass. rewrite Ha.
    destruct (worker_iteration st) as [[[|]|e] st']; reflexivity.
Qed.

(** Every run of the loop taken statement by statement, under any
    interleaving with the calls of the owner and the callbacks of the
    device, is a run of the events: same final state, same samples
    delivered. *)
Lemma interleavings_covered (l : list action) :
  forall (st : state) (past : gset nat),
    run st (trace_of st past l)
    = (fst (fst (acts st past l)), snd (acts st past l)).
Proof.
  induction l as [|a l IH]; intros st past; [reflexivity|].
  cbn [acts trace_of].
  pose proof (act_events st past a) as Hact.
  destruct (act st past a) as [[st1 past1] out1]. cbn [fst snd] in Hact.
  rewrite run_app, Hact, IH.
  destruct (acts st1 past1 l) as [[st2 past2] out2]. reflexivity.
Qed.

End Granularity.

(** A worker that has made its loop test when [stop()] is called goes
    through its pass afterwards: statement by statement, and as the events
    have it. *)
Example body_after_stop :
  let st := fst (@run headerless (__init__ 48000)
                   [CallStart; CallAdd (Some [Byte.x00; Byte.x40])]) in
  let l := [LoopTest 0; Outside CallStop; LoopBody 0; LoopTest 0] in
  @trace_of headerless st ∅ l = [CallStop; WorkerLatePass 0; WorkerTurn 0] /\
  audio_data_buffer (fst (fst (@acts headerless st ∅ l))) = [0.5%float] /\
  queue (audio_queue (fst (fst (@acts headerless st ∅ l)))) = [] /\
  threads (fst (fst (@acts headerless st ∅ l))) = [false].
Proof. vm_compute. repeat split. Qed.
